(** * landsat-bigquery: the cost-guarded query runner and the centroid export

    A shallow embedding of [src/bq_utils.py] (the estimator and the guarded
    runner) and of [images_to_points] from [export.py], with the properties
    the specification states about them; then of the rest of [export.py]'s
    collection code and of the data preparation in [queries.py] (the frame
    behind the cumulative chart, the frames of the animation), with
    properties read off the code.

    Modelling conventions.
    - In the runner a Python [float] is an exact rational ([Qc], canonical
      fractions with Leibniz equality), which leaves rounding, infinities
      and NaN out.  The arithmetic of the estimator is also given as Python
      performs it, in IEEE 754 binary64 ([spec_float] of the standard
      library, [estimate_query_cost_binary64]), and its result is compared
      with the exact one.
    - A Python [str] is a [string] of bytes (its UTF-8 encoding).
    - The process talks to three things: the warehouse (through
      [client.query]), the terminal ([input], [print]) and the interpreter
      ([sys.exit], exceptions).  They are threaded explicitly: a [World]
      carries the warehouse state, the lines still to be read from standard
      input and the chronological trace of every external interaction.
    - The warehouse client is a parameter: any function from a query text, a
      job configuration and a warehouse state to an answer and a new state. *)

From Stdlib Require Import ZArith QArith Qcanon String Ascii List Lia.
From Stdlib Require Import SpecFloat.
From Stdlib Require Qcabs.
From stdpp Require Import gmap strings pretty sorting.

Local Open Scope string_scope.
Local Open Scope Z_scope.
Local Open Scope list_scope.

(** ** Values of the warehouse client library *)

(** [bigquery.QueryJobConfig]: only the two properties this program sets
    are kept; [None] is a property left unset. *)
Record QueryJobConfig : Type := mkQueryJobConfig {
  dry_run : option bool;
  use_query_cache : option bool
}.

(** [bigquery.QueryJob]: the handle [client.query] returns.  The statistics
    are optional in the client library ([Optional[int]]). *)
Record QueryJob : Type := mkQueryJob {
  total_bytes_processed : option Z;
  cache_hit : bool
}.

(** Exceptions the modelled code can meet. *)
Inductive exn : Type :=
| GoogleAPIError (message : string)   (* raised by the client library *)
| TypeError (message : string)        (* arithmetic on [None] *)
| OverflowError (message : string)    (* a quotient of [int]s beyond the floats *)
| EOFError.                           (* [input] at end of file *)

#[global] Instance QueryJobConfig_eq_dec : EqDecision QueryJobConfig.
Proof. solve_decision. Defined.

(** What a call leaves behind: a value, an exception in flight, or the
    interpreter leaving through [sys.exit]. *)
Inductive Outcome (A : Type) : Type :=
| Returned (a : A)
| Raised (e : exn)
| Exited (code : Z).

Arguments Returned {A} a.
Arguments Raised {A} e.
Arguments Exited {A} code.

(** External interactions, in the order they happen. *)
Inductive Event : Type :=
| EvQuery (query : string) (job_config : option QueryJobConfig)
| EvInput (prompt : string)
| EvPrint (message : string).

(** The submissions among the events of a trace. *)
Definition is_submission (ev : Event) : bool :=
  match ev with
  | EvQuery _ _ => true
  | _ => false
  end.

(** ** The client and the world *)

Section Runner.

(** The state of the warehouse (tables, result cache, job history ...). *)
Variable W : Type.

(** [bigquery.Client]: [client.query(query, job_config=...)] either returns
    a job handle or raises, and moves the warehouse to a new state. *)
Record Client : Type := mkClient {
  client_query : string -> option QueryJobConfig -> W -> (exn + QueryJob) * W
}.

Record World : Type := mkWorld {
  warehouse : W;
  stdin : list string;
  trace : list Event
}.

Definition log (ev : Event) (w : World) : World :=
  {| warehouse := warehouse w; stdin := stdin w; trace := trace w ++ [ev] |}.

(** ** A small monad for state, exceptions and exit *)

Definition M (A : Type) : Type := World -> Outcome A * World.

Definition ret {A} (a : A) : M A := fun w => (Returned a, w).

Definition bind {A B} (m : M A) (k : A -> M B) : M B :=
  fun w =>
    match m w with
    | (Returned a, w') => k a w'
    | (Raised e, w') => (Raised e, w')
    | (Exited code, w') => (Exited code, w')
    end.

Definition raise {A} (e : exn) : M A := fun w => (Raised e, w).

End Runner.

Arguments client_query {W} c query job_config wh.
Arguments mkClient {W} client_query.
Arguments mkWorld {W} warehouse stdin trace.
Arguments warehouse {W} w.
Arguments stdin {W} w.
Arguments trace {W} w.
Arguments log {W} ev w.
Arguments ret {W A} a w.
Arguments bind {W A B} m k w.
Arguments raise {W A} e w.

Declare Scope py_scope.
Delimit Scope py_scope with py.
Notation "x <- m ;; k" := (bind m (fun x => k))
  (at level 100, m at next level, right associativity) : py_scope.
Notation "m ;;; k" := (bind m (fun _ => k))
  (at level 100, right associativity) : py_scope.
Local Open Scope py_scope.

(** ** Python built-ins used by the runner *)

(** [str.lower] on the ASCII letters; other bytes are kept.  (No code point
    other than [Y] and [y] has [y] as its lower case, so the comparison the
    runner makes is not affected by the bytes left alone.) *)
Definition lower_ascii (c : ascii) : ascii :=
  let n := nat_of_ascii c in
  if (Nat.leb 65 n && Nat.leb n 90)%bool then ascii_of_nat (n + 32) else c.

Fixpoint lower (s : string) : string :=
  match s with
  | EmptyString => EmptyString
  | String c s' => String (lower_ascii c) (lower s')
  end.

(** Nearest integer to [n / d], ties to the even one ([0 <= n], [0 < d]). *)
Definition round_half_even (n d : Z) : Z :=
  let q := n / d in
  match 2 * (n mod d) ?= d with
  | Lt => q
  | Eq => if Z.even q then q else q + 1
  | Gt => q + 1
  end.

Fixpoint zeros (k : nat) : string :=
  match k with
  | O => EmptyString
  | S k' => String "0" (zeros k')
  end.

Definition zero_pad (width : nat) (s : string) : string :=
  zeros (width - String.length s) +:+ s.

(** The format specification [:.4f]. *)
Definition format_4f (x : Qc) : string :=
  let n := Qnum (this x) in
  let r := round_half_even (Z.abs n * 10000) (Zpos (Qden (this x))) in
  (if n <? 0 then "-" else "")
    +:+ pretty (r / 10000) +:+ "." +:+ zero_pad 4 (pretty (r mod 10000)).

(** [x > y] on floats. *)
Definition Qc_gtb (x y : Qc) : bool := bool_decide (y < x)%Qc.

Section Builtins.

Variable W : Type.

(** How an answer of the client shows in Python: the handle is returned,
    the error is raised as it is. *)
Definition answered (answer : exn + QueryJob) : Outcome QueryJob :=
  match answer with
  | inr job => Returned job
  | inl e => Raised e
  end.

(** [client.query(query, job_config=job_config)]. *)
Definition call_query (client : Client W) (query : string)
    (job_config : option QueryJobConfig) : M W QueryJob :=
  fun w =>
    let w1 := log (EvQuery query job_config) w in
    let (answer, wh) := client_query client query job_config (warehouse w1) in
    let w2 := {| warehouse := wh; stdin := stdin w1; trace := trace w1 |} in
    match answer with
    | inr job => (Returned job, w2)
    | inl e => (Raised e, w2)
    end.

(** [input(prompt)]: shows the prompt and reads one line, without its
    newline; at end of file it raises [EOFError].  (Signals are outside the
    model: an interrupt at the prompt, which Python turns into
    [KeyboardInterrupt], is not an input the world can hold.) *)
Definition input (prompt : string) : M W string :=
  fun w =>
    let w1 := log (EvInput prompt) w in
    match stdin w1 with
    | line :: rest =>
        (Returned line,
         {| warehouse := warehouse w1; stdin := rest; trace := trace w1 |})
    | [] => (Raised EOFError, w1)
    end.

(** [print(message)]. *)
Definition print (message : string) : M W unit :=
  fun w => (Returned tt, log (EvPrint message) w).

(** [sys.exit(code)]. *)
Definition sys_exit {A} (code : Z) : M W A :=
  fun w => (Exited code, w).

End Builtins.

Arguments call_query {W} client query job_config w.
Arguments input {W} prompt w.
Arguments print {W} message w.
Arguments sys_exit {W A} code w.

(** ** Floats in binary64

    A Python [float] is an IEEE 754 binary64 number: 53 bits of precision,
    exponents below 1024.  [S754_finite s m e] stands for [(-1)^s * m * 2^e];
    arithmetic rounds to the nearest float, ties to the even mantissa. *)

Definition prec : Z := 53.
Definition emax : Z := 1024.

(** [2 ** e] as a rational, for an exponent of either sign. *)
Definition pow2 (e : Z) : Qc :=
  (Qc_of_Z (2 ^ Z.max 0 e) / Qc_of_Z (2 ^ Z.max 0 (- e)))%Qc.

Definition magnitude (m : positive) (e : Z) : Qc :=
  (Qc_of_Z (Zpos m) * pow2 e)%Qc.

(** The number a finite float stands for (both zeros stand for 0; the
    infinities and NaN stand for no number and are mapped to 0). *)
Definition float_value (x : spec_float) : Qc :=
  match x with
  | S754_finite s m e => if s then (- magnitude m e)%Qc else magnitude m e
  | _ => Q2Qc 0
  end.

Definition is_finite (x : spec_float) : bool :=
  match x with
  | S754_zero _ | S754_finite _ _ _ => true
  | _ => false
  end.

(** [a / 2 ** k] on two [int]s.  True division of [int]s returns the float
    nearest to the exact quotient (it does not convert the operands first),
    and raises [OverflowError] when the quotient is beyond the largest
    float.  For the divisor [2 ** k] the exact quotient is [a * 2^(-k)]. *)
Definition int_truediv_pow2 (a k : Z) : exn + spec_float :=
  match binary_normalize prec emax a (- k) false with
  | S754_infinity _ => inl (OverflowError "integer division result too large for a float")
  | x => inr x
  end.

(** [x * y] on two [float]s. *)
Definition float_mul (x y : spec_float) : spec_float := SFmul prec emax x y.

(** ** src/bq_utils.py *)

Module bq_utils.
Section WithWarehouse.

Variable W : Type.

(** The configuration [estimate_query_cost] builds for its submission. *)
Definition dry_run_config : QueryJobConfig :=
  {| dry_run := Some true; use_query_cache := Some false |}.

(** Defaults of the keyword arguments. *)
Definition default_cost_per_tb : Qc := Q2Qc 6.
Definition default_config : option QueryJobConfig := None.
Definition default_warning_threshold : Qc := Q2Qc 0.001.

(** The price [run_query] passes to the estimator. *)
Definition run_query_cost_per_tb : Qc := Q2Qc 6.25.

Definition estimate_query_cost (client : Client W) (query : string)
    (cost_per_tb : Qc) : M W Qc :=
  let config := dry_run_config in
  dry_run <- call_query client query (Some config) ;;
  match total_bytes_processed dry_run with
  | Some bytes => ret ((Qc_of_Z bytes / Qc_of_Z (1024 ^ 4)) * cost_per_tb)%Qc
  | None => raise (TypeError "unsupported operand type(s) for /: 'NoneType' and 'int'")
  end.

(** The estimator with its arithmetic as Python performs it:
    [dry_run.total_bytes_processed / 1024 ** 4] is a true division of two
    [int]s, the divisor being [1024 ** 4 = 2 ** 40], and the product with
    [cost_per_tb] is a multiplication of floats (an [int] price such as the
    default 6 is converted first, exactly). *)
Definition estimate_query_cost_binary64 (client : Client W) (query : string)
    (cost_per_tb : spec_float) : M W spec_float :=
  let config := dry_run_config in
  dry_run <- call_query client query (Some config) ;;
  match total_bytes_processed dry_run with
  | Some bytes =>
      match int_truediv_pow2 bytes 40 with
      | inr terabytes => ret (float_mul terabytes cost_per_tb)
      | inl e => raise e
      end
  | None => raise (TypeError "unsupported operand type(s) for /: 'NoneType' and 'int'")
  end.

(** The prices of the accuracy statement: zero, and the normal floats [p]
    with [2^-982 <= |p| < 2^998] (a product with such a price neither
    overflows nor falls among the subnormal numbers). *)
Definition price_in_range (p : spec_float) : bool :=
  match p with
  | S754_zero _ => true
  | S754_finite _ m e =>
      (Zpos (digits2_pos m) =? prec) && (-1034 <=? e) && (e <=? 945)
  | _ => false
  end.

(** The two prices of the source, and a price that is no binary fraction. *)
Definition float_6 : spec_float := S754_finite false 6755399441055744 (-50).
Definition float_6_25 : spec_float := S754_finite false 7036874417766400 (-50).
Definition float_0_1 : spec_float := S754_finite false 7205759403792794 (-56).

Definition prompt_text (estimated_cost : Qc) : string :=
  "Estimated query cost: $" +:+ format_4f estimated_cost
    +:+ ". Continue? (y/N): ".

Definition run_query (client : Client W) (query : string)
    (config : option QueryJobConfig) (warning_threshold : Qc) : M W QueryJob :=
  estimated_cost <- estimate_query_cost client query run_query_cost_per_tb ;;
  (if Qc_gtb estimated_cost warning_threshold then
     answer <- input (prompt_text estimated_cost) ;;
     if negb (String.eqb (lower answer) "y") then
       (print "Query cancelled." ;;; sys_exit 0)
     else ret tt
   else ret tt) ;;;
  call_query client query config.

End WithWarehouse.
End bq_utils.

Arguments bq_utils.estimate_query_cost {W} client query cost_per_tb w.
Arguments bq_utils.estimate_query_cost_binary64 {W} client query cost_per_tb w.
Arguments bq_utils.run_query {W} client query config warning_threshold w.

(** ** src/export.py *)

Module export.

(** Geometries of the catalog ([ee.Geometry]), as longitude/latitude pairs. *)
Inductive Geometry : Type :=
| Point (lon lat : Qc)
| Polygon (ring : list (Qc * Qc))
| MultiPolygon (rings : list (list (Qc * Qc))).

(** Property values of catalog entries. *)
Inductive Value : Type :=
| VString (s : string)
| VInt (n : Z)
| VFloat (x : Qc).

(** [ee.Image]: its footprint and its metadata; the pixels play no part. *)
Record Image : Type := mkImage {
  footprint : Geometry;
  properties : gmap string Value
}.

(** [ee.Feature]: a geometry and a property dictionary. *)
Record Feature : Type := mkFeature {
  geometry : Geometry;
  feature_properties : gmap string Value
}.

Definition is_point (g : Geometry) : bool :=
  match g with
  | Point _ _ => true
  | _ => false
  end.

Section WithCatalog.

(** [ee.Geometry.centroid] is computed by the catalog service ("returns a
    point at the center of the highest-dimension components of the
    geometry"); the coordinates it picks are a parameter. *)
Variable centre : Geometry -> Qc * Qc.

(** [ee.ImageCollection(name)]: the images of a named collection. *)
Variable catalog : string -> list Image.

Definition Geometry_centroid (g : Geometry) : Geometry :=
  let (lon, lat) := centre g in Point lon lat.

(** [img.geometry()]. *)
Definition Image_geometry (img : Image) : Geometry := footprint img.

(** [ee.Feature(geom)]: a feature with no property yet. *)
Definition Feature_of_geometry (g : Geometry) : Feature :=
  {| geometry := g; feature_properties := ∅ |}.

(** [destination.copyProperties(source, properties)]: every listed property
    the source has is written to the destination; nothing else changes. *)
Definition copyProperties (destination : Feature) (source : Image)
    (names : list string) : Feature :=
  {| geometry := geometry destination;
     feature_properties :=
       foldl (fun m k =>
                match properties source !! k with
                | Some v => <[k := v]> m
                | None => m
                end)
             (feature_properties destination) names |}.

Definition platforms : list string :=
  ["LM01"; "LM02"; "LM03"; "LM04"; "LT04"; "LT05"; "LE07"; "LC08"; "LC09"].

Definition tiers : list string := ["T1"; "T2"].

Definition collect_landsat_missions : list Image :=
  foldl (fun (merged_collections : list Image) (platform : string) =>
           foldl (fun (merged : list Image) (tier : string) =>
                    let col := catalog ("LANDSAT/" +:+ platform +:+ "/C02/" +:+ tier) in
                    merged ++ col)
                 merged_collections tiers)
        [] platforms.

Definition keep_cols : list string :=
  [ "SPACECRAFT_ID";
    "DATE_ACQUIRED";
    "WRS_PATH";
    "WRS_ROW";
    "COLLECTION_CATEGORY";
    "CLOUD_COVER_LAND";
    "CLOUD_COVER";
    "SUN_ELEVATION" ].

Definition centroid (img : Image) : Feature :=
  copyProperties (Feature_of_geometry (Geometry_centroid (Image_geometry img)))
                 img keep_cols.

Definition images_to_points (col : list Image) : list Feature :=
  map centroid col.

End WithCatalog.

(** A catalog entry to run the export on: a scene over open ocean, with
    one property more than the export keeps. *)
Definition sample_image : Image :=
  {| footprint :=
       Polygon [(Q2Qc (-124), Q2Qc 36); (Q2Qc (-122), Q2Qc 36);
                (Q2Qc (-122), Q2Qc 38); (Q2Qc (-124), Q2Qc 38)];
     properties :=
       {[ "SPACECRAFT_ID" := VString "LANDSAT_8";
          "DATE_ACQUIRED" := VString "2020-07-04";
          "WRS_PATH" := VInt 44;
          "WRS_ROW" := VInt 34;
          "COLLECTION_CATEGORY" := VString "T1";
          "CLOUD_COVER_LAND" := VInt (-1);
          "CLOUD_COVER" := VFloat (Q2Qc 12.5);
          "SUN_ELEVATION" := VFloat (Q2Qc 63.25);
          "LANDSAT_PRODUCT_ID" := VString "LC08_L1GT_044034_20200704_02_T1" ]} |}.

(** A stand-in for the service's centroid, right on four-cornered boxes:
    the midpoint of the first and the third corner. *)
Definition box_centre (g : Geometry) : Qc * Qc :=
  match g with
  | Point lon lat => (lon, lat)
  | Polygon [(lon1, lat1); _; (lon3, lat3); _] =>
      (((lon1 + lon3) / Q2Qc 2)%Qc, ((lat1 + lat3) / Q2Qc 2)%Qc)
  | _ => (Q2Qc 0, Q2Qc 0)
  end.

(** The coordinates of a point; the other geometries have none. *)
Definition coordinates (g : Geometry) : Qc * Qc :=
  match g with
  | Point lon lat => (lon, lat)
  | _ => (Q2Qc 0, Q2Qc 0)
  end.

(** *** A planar centroid

    A stand-in for the service's [centroid()] on small footprints: the area
    centroid of the rings in the plane of longitude and latitude, by the
    shoelace formula.  (A ring is closed by going back to its first corner;
    rings without area get the origin.) *)

Definition cross (p q : Qc * Qc) : Qc := (fst p * snd q - fst q * snd p)%Qc.

Definition edges (ring : list (Qc * Qc)) : list ((Qc * Qc) * (Qc * Qc)) :=
  match ring with
  | [] => []
  | p :: rest => combine ring (rest ++ [p])
  end.

Definition Qc_sum (l : list Qc) : Qc := foldr Qcplus (Q2Qc 0) l.

(** Twice the signed area enclosed by the edges. *)
Definition area2 (es : list ((Qc * Qc) * (Qc * Qc))) : Qc :=
  Qc_sum (map (fun e => cross (fst e) (snd e)) es).

Definition edges_centroid (es : list ((Qc * Qc) * (Qc * Qc))) : Qc * Qc :=
  ((Qc_sum (map (fun e => (fst (fst e) + fst (snd e)) * cross (fst e) (snd e)) es)
      / (Q2Qc 3 * area2 es))%Qc,
   (Qc_sum (map (fun e => (snd (fst e) + snd (snd e)) * cross (fst e) (snd e)) es)
      / (Q2Qc 3 * area2 es))%Qc).

Definition planar_centroid (g : Geometry) : Geometry :=
  match g with
  | Point lon lat => Point lon lat
  | Polygon ring =>
      let (lon, lat) := edges_centroid (edges ring) in Point lon lat
  | MultiPolygon rings =>
      let (lon, lat) := edges_centroid (flat_map edges rings) in Point lon lat
  end.

(** What makes a point the centre of a footprint shaped as Landsat scenes
    are: for a parallelogram with area, the point where its diagonals
    cross; for a point, the point itself. *)
Definition centre_of_footprint (g c : Geometry) : Prop :=
  match g with
  | Point lon lat => c = Point lon lat
  | Polygon [p1; p2; p3; p4] =>
      (fst p1 + fst p3 = fst p2 + fst p4)%Qc ->
      (snd p1 + snd p3 = snd p2 + snd p4)%Qc ->
      area2 (edges [p1; p2; p3; p4]) <> Q2Qc 0 ->
      c = Point ((fst p1 + fst p3) / Q2Qc 2)%Qc ((snd p1 + snd p3) / Q2Qc 2)%Qc
  | _ => True
  end.

End export.

(** ** A reference warehouse

    A small executable warehouse with a result cache, used to run the
    runner on concrete inputs.  A query text is valid when [scan_bytes]
    knows it; a real job fills the result cache, and a job that may use
    the cache and finds its query there reports no bytes scanned.  Real
    jobs are refused while billing is disabled; dry runs are free. *)

Module reference_warehouse.

Record State : Type := mkState {
  scan_bytes : gmap string Z;
  result_cache : gset string;
  billing_enabled : bool
}.

Definition wants_dry_run (job_config : option QueryJobConfig) : bool :=
  match job_config with
  | Some c => default false (dry_run c)
  | None => false
  end.

Definition wants_cache (job_config : option QueryJobConfig) : bool :=
  match job_config with
  | Some c => default true (use_query_cache c)
  | None => true
  end.

Definition query (q : string) (job_config : option QueryJobConfig)
    (wh : State) : (exn + QueryJob) * State :=
  match scan_bytes wh !! q with
  | None => (inl (GoogleAPIError "400 Syntax error"), wh)
  | Some bytes =>
      if wants_dry_run job_config then
        let hit := wants_cache job_config && bool_decide (q ∈ result_cache wh) in
        (inr {| total_bytes_processed := Some (if hit then 0 else bytes);
                cache_hit := hit |}, wh)
      else if billing_enabled wh then
        let hit := wants_cache job_config && bool_decide (q ∈ result_cache wh) in
        (inr {| total_bytes_processed := Some (if hit then 0 else bytes);
                cache_hit := hit |},
         {| scan_bytes := scan_bytes wh;
            result_cache := {[ q ]} ∪ result_cache wh;
            billing_enabled := true |})
      else (inl (GoogleAPIError "403 Billing has not been enabled"), wh)
  end.

Definition client : Client State := mkClient query.

(** The part of the state that is not the result cache. *)
Definition data (wh : State) : gmap string Z * bool :=
  (scan_bytes wh, billing_enabled wh).

Definition scenes_query : string := "SELECT COUNT(*) AS scenes FROM scenes".
Definition constant_query : string := "SELECT 1".

(** Counting the scenes scans 1759218604 bytes (one cent at 6.25 per
    2^40 bytes); the constant query scans nothing.  Nothing is cached. *)
Definition fresh : State :=
  {| scan_bytes := {[ scenes_query := 1759218604; constant_query := 0 ]};
     result_cache := ∅;
     billing_enabled := true |}.

Definition unbilled : State :=
  {| scan_bytes := scan_bytes fresh;
     result_cache := ∅;
     billing_enabled := false |}.

Definition warmed : State :=
  {| scan_bytes := scan_bytes fresh;
     result_cache := {[ scenes_query ]};
     billing_enabled := true |}.

(** A process about to start: nothing traced yet. *)
Definition start (wh : State) (lines : list string) : World State :=
  {| warehouse := wh; stdin := lines; trace := [] |}.

End reference_warehouse.

(** ** src/queries.py: the frame behind the cumulative chart

    [plot_cumulative_scenes] turns the answer of its query (one row per
    spacecraft and year with scenes, holding the running count) into the
    frame it plots.  The frame is a list of rows in index order; the count
    column is integral until [replace(0, np.nan)] makes it a float column,
    where [None] stands for NaN; counts are far below 2^53, so the floats
    are the integers they came from. *)

Module queries.

Record Row (A : Type) : Type := mkRow {
  SPACECRAFT_ID : string;
  year_acquired : Z;
  cumulative_count : A
}.

Arguments mkRow {A} SPACECRAFT_ID year_acquired cumulative_count.
Arguments SPACECRAFT_ID {A} r.
Arguments year_acquired {A} r.
Arguments cumulative_count {A} r.

(** The order of Python strings (code points, that is bytes in UTF-8). *)
Definition string_le (a b : string) : Prop := String.leb a b = true.

#[global] Instance string_le_dec : RelDecision string_le.
Proof. intros a b. unfold string_le. solve_decision. Defined.

(** [pd.Categorical(values).categories]: the distinct values, sorted. *)
Definition categories (df : list (Row Z)) : list string :=
  merge_sort string_le (remove_dups (map SPACECRAFT_ID df)).

(** The group keys of a plain column: its distinct values, sorted. *)
Definition years (df : list (Row Z)) : list Z :=
  merge_sort Z.le (remove_dups (map year_acquired df)).

(** The sum of one group; an empty group sums to 0. *)
Definition group_sum (df : list (Row Z)) (spacecraft : string) (year : Z) : Z :=
  foldr Z.add 0
        (map cumulative_count
             (List.filter (fun r => bool_decide (SPACECRAFT_ID r = spacecraft
                                                 /\ year_acquired r = year))
                          df)).

(** [df.groupby(["SPACECRAFT_ID", "year_acquired"], observed=False).sum()
    .reset_index()] with a categorical first key: one row for every
    category and every year of the frame, observed together or not. *)
Definition regroup (df : list (Row Z)) : list (Row Z) :=
  flat_map (fun spacecraft =>
              map (fun year => mkRow spacecraft year (group_sum df spacecraft year))
                  (years df))
           (categories df).

(** [column.replace(0, np.nan)]. *)
Definition replace_zero_nan (df : list (Row Z)) : list (Row (option Z)) :=
  map (fun r => mkRow (SPACECRAFT_ID r) (year_acquired r)
                      (if decide (cumulative_count r = 0) then None
                       else Some (cumulative_count r)))
      df.

(** [df.groupby("SPACECRAFT_ID", observed=True)[column].ffill()]: going down
    the rows, a NaN takes the last value seen in its own group, if any;
    [seen] holds that value for every group met so far. *)
Fixpoint ffill (seen : gmap string Z) (df : list (Row (option Z)))
    : list (Row (option Z)) :=
  match df with
  | [] => []
  | r :: rest =>
      match cumulative_count r with
      | Some v => r :: ffill (<[SPACECRAFT_ID r := v]> seen) rest
      | None =>
          mkRow (SPACECRAFT_ID r) (year_acquired r) (seen !! SPACECRAFT_ID r)
            :: ffill seen rest
      end
  end.

(** What [ffill] has seen once it is through the rows of [df]. *)
Definition seen_after (seen : gmap string Z) (df : list (Row (option Z)))
    : gmap string Z :=
  foldl (fun m r =>
           match cumulative_count r with
           | Some v => <[SPACECRAFT_ID r := v]> m
           | None => m
           end)
        seen df.

(** [column.fillna(0)]. *)
Definition fillna_zero (df : list (Row (option Z))) : list (Row Z) :=
  map (fun r => mkRow (SPACECRAFT_ID r) (year_acquired r)
                      (default 0 (cumulative_count r)))
      df.

(** Lines 76 to 86: zeros to NaN, forward fill by spacecraft, NaN to 0. *)
Definition fill_forward (df : list (Row Z)) : list (Row Z) :=
  fillna_zero (ffill ∅ (replace_zero_nan df)).

(** The frame handed to the chart. *)
Definition cumulative_scenes (df : list (Row Z)) : list (Row Z) :=
  fill_forward (regroup df).

(** The rows of one spacecraft in [l] all have a zero count. *)
Definition idle (spacecraft : string) (l : list (Row Z)) : Prop :=
  Forall (fun r => SPACECRAFT_ID r = spacecraft -> cumulative_count r = 0) l.

(** The group key of a row. *)
Definition key {A} (r : Row A) : string * Z := (SPACECRAFT_ID r, year_acquired r).

(** [v] is the count a spacecraft carries into a year: the count of its
    latest row up to that year whose count is not 0, or 0 when it has none. *)
Definition carried (df : list (Row Z)) (spacecraft : string) (year : Z) (v : Z)
    : Prop :=
  (exists r, In r df /\ SPACECRAFT_ID r = spacecraft /\ year_acquired r <= year
             /\ cumulative_count r <> 0 /\ v = cumulative_count r
             /\ forall r', In r' df -> SPACECRAFT_ID r' = spacecraft ->
                           year_acquired r < year_acquired r' <= year ->
                           cumulative_count r' = 0)
  \/ (v = 0
      /\ forall r', In r' df -> SPACECRAFT_ID r' = spacecraft ->
                    year_acquired r' <= year -> cumulative_count r' = 0).

(** An answer of the query: two spacecraft, a gap year for each. *)
Definition sample_answer : list (Row Z) :=
  [ mkRow "LANDSAT_5" 1984 10; mkRow "LANDSAT_5" 1985 25;
    mkRow "LANDSAT_5" 1987 40;
    mkRow "LANDSAT_7" 1986 7; mkRow "LANDSAT_7" 1987 30 ].

(** *** The frames of the animation ([visualize_clear_scenes_by_location]) *)

(** A row of [num_scenes], the answer of the third query: the clear scenes
    of one grid cell in one year, and the centre of the cell. *)
Record CellRow : Type := mkCellRow {
  year : Z;
  num_scenes : Z;
  WRS_PATH : Z;
  WRS_ROW : Z;
  geo : Qc * Qc
}.

Definition fewer_scenes (a b : CellRow) : Prop := num_scenes a <= num_scenes b.

#[global] Instance fewer_scenes_dec : RelDecision fewer_scenes.
Proof. intros a b. unfold fewer_scenes. solve_decision. Defined.



Section Animation.

(** [df.sort_values(by=["num_scenes"], ascending=True)]: the order among
    rows with equal counts is the library's choice. *)
Variable sort_values : list CellRow -> list CellRow.


End Animation.


End queries.

(** The sample scene after reprocessing: another product identifier, the
    same footprint and metadata. *)
Definition reprocessed_image : export.Image :=
  {| export.footprint := export.footprint export.sample_image;
     export.properties :=
       <[ "LANDSAT_PRODUCT_ID" := export.VString "LC08_L1GT_044034_20200704_02_T2" ]>
         (export.properties export.sample_image) |}.

(** A client whose handles carry no statistics. *)
Definition silent_client : Client unit :=
  mkClient (fun _ _ wh =>
              (inr {| total_bytes_processed := None; cache_hit := false |}, wh)).

(** * Properties *)

Import bq_utils.
Module R := reference_warehouse.

(** ** Built-ins *)

Lemma lower_ascii_y (c : ascii) :
  lower_ascii c = "y"%char <-> c = "y"%char \/ c = "Y"%char.
Proof.
  destruct c as [[] [] [] [] [] [] [] []]; vm_compute;
    split; intros H; try discriminate H; try (destruct H as [H | H]; discriminate H);
    auto.
Qed.

(** The confirmation test accepts exactly the two spellings of the token. *)
Lemma lower_is_y (s : string) : lower s = "y" <-> s = "y" \/ s = "Y".
Proof.
  destruct s as [| c [| c' s']]; simpl.
  - split; [discriminate | intros [H | H]; discriminate H].
  - split.
    + intros H. injection H as H. apply lower_ascii_y in H.
      destruct H as [-> | ->]; auto.
    + intros [H | H]; injection H as ->; reflexivity.
  - split; [discriminate | intros [H | H]; discriminate H].
Qed.

Lemma answer_eqb_spec (answer : string) :
  negb (String.eqb (lower answer) "y") = negb (bool_decide (lower answer = "y")).
Proof.
  f_equal. destruct (String.eqb_spec (lower answer) "y") as [E | E].
  - symmetry. apply bool_decide_eq_true. exact E.
  - symmetry. apply bool_decide_eq_false. exact E.
Qed.

Lemma Qc_gtb_true (x y : Qc) : (y < x)%Qc -> Qc_gtb x y = true.
Proof. intros H. apply bool_decide_eq_true. exact H. Qed.

Lemma Qc_gtb_false (x y : Qc) : (x <= y)%Qc -> Qc_gtb x y = false.
Proof. intros H. apply bool_decide_eq_false. apply Qcle_not_lt. exact H. Qed.

(** ** The runner, one branch at a time *)

Section RunnerFacts.

Variable W : Type.
Variable client : Client W.

Lemma call_query_run query job_config (w : World W) :
  call_query client query job_config w =
    (answered (fst (client_query client query job_config (warehouse w))),
     {| warehouse := snd (client_query client query job_config (warehouse w));
        stdin := stdin w;
        trace := trace w ++ [EvQuery query job_config] |}).
Proof.
  unfold call_query. simpl.
  destruct (client_query client query job_config (warehouse w)) as [[e | job] wh];
    reflexivity.
Qed.

(** The estimator makes one submission, the dry run, and touches nothing
    else of the world. *)
Lemma estimate_query_cost_world query cost_per_tb (w w1 : World W) o :
  estimate_query_cost client query cost_per_tb w = (o, w1) ->
  w1 = {| warehouse :=
            snd (client_query client query (Some dry_run_config) (warehouse w));
          stdin := stdin w;
          trace := trace w ++ [EvQuery query (Some dry_run_config)] |}.
Proof.
  unfold estimate_query_cost, bind. rewrite call_query_run.
  destruct (client_query client query (Some dry_run_config) (warehouse w))
    as [[e | job] wh]; simpl.
  - intros [= _ <-]. reflexivity.
  - destruct (total_bytes_processed job); unfold ret, raise;
      intros [= _ <-]; reflexivity.
Qed.

Lemma estimate_query_cost_returned query cost_per_tb (w w1 : World W) cost :
  estimate_query_cost client query cost_per_tb w = (Returned cost, w1) ->
  exists job bytes,
    fst (client_query client query (Some dry_run_config) (warehouse w)) = inr job
    /\ total_bytes_processed job = Some bytes
    /\ cost = (Qc_of_Z bytes / Qc_of_Z (1024 ^ 4) * cost_per_tb)%Qc.
Proof.
  unfold estimate_query_cost, bind. rewrite call_query_run.
  destruct (client_query client query (Some dry_run_config) (warehouse w))
    as [[e | job] wh]; simpl; [discriminate |].
  destruct (total_bytes_processed job) as [bytes |] eqn:Hb;
    unfold ret, raise; [| discriminate].
  intros [= <- _]. exists job, bytes. auto.
Qed.

(** Below the threshold: straight to the real submission. *)
Lemma run_query_unprompted query config thr (w w1 : World W) cost :
  estimate_query_cost client query run_query_cost_per_tb w = (Returned cost, w1) ->
  (cost <= thr)%Qc ->
  run_query client query config thr w = call_query client query config w1.
Proof.
  intros He Hc. unfold run_query, bind at 1. rewrite He.
  unfold bind at 1. rewrite (Qc_gtb_false _ _ Hc). reflexivity.
Qed.

(** Above the threshold with a line to read. *)
Lemma run_query_prompted query config thr (w w1 : World W) cost line rest :
  estimate_query_cost client query run_query_cost_per_tb w = (Returned cost, w1) ->
  (thr < cost)%Qc ->
  stdin w = line :: rest ->
  run_query client query config thr w =
    let w2 := {| warehouse := warehouse w1; stdin := rest;
                 trace := trace w1 ++ [EvInput (prompt_text cost)] |} in
    if bool_decide (lower line = "y") then call_query client query config w2
    else (Exited 0, log (EvPrint "Query cancelled.") w2).
Proof.
  intros He Hc Hin. unfold run_query, bind at 1. rewrite He.
  unfold bind at 1. rewrite (Qc_gtb_true _ _ Hc).
  unfold bind at 1, input. simpl.
  rewrite (estimate_query_cost_world _ _ _ _ _ He). simpl. rewrite Hin.
  rewrite answer_eqb_spec.
  destruct (bool_decide (lower line = "y")); reflexivity.
Qed.

(** Above the threshold at end of input: [input] raises. *)
Lemma run_query_end_of_input query config thr (w w1 : World W) cost :
  estimate_query_cost client query run_query_cost_per_tb w = (Returned cost, w1) ->
  (thr < cost)%Qc ->
  stdin w = [] ->
  run_query client query config thr w =
    (Raised EOFError, log (EvInput (prompt_text cost)) w1).
Proof.
  intros He Hc Hin. unfold run_query, bind at 1. rewrite He.
  unfold bind at 1. rewrite (Qc_gtb_true _ _ Hc).
  unfold bind at 1, input. simpl.
  rewrite (estimate_query_cost_world _ _ _ _ _ He). simpl. rewrite Hin.
  reflexivity.
Qed.

(** A failed estimate ends the runner on the spot. *)
Lemma run_query_estimate_raised query config thr (w w1 : World W) e :
  estimate_query_cost client query run_query_cost_per_tb w = (Raised e, w1) ->
  run_query client query config thr w = (Raised e, w1).
Proof. intros He. unfold run_query, bind at 1. rewrite He. reflexivity. Qed.

End RunnerFacts.

(** ** The guarded runner *)

(** C1.  When the estimated cost is at most the warning threshold,
    [run_query] makes the real submission exactly once, right after the dry
    run: no prompt is shown, standard input is not read, and the result is
    what [client.query] answered (the job handle as it is; nothing waits
    for the job). *)
Theorem run_query_within_threshold (W : Type) (client : Client W)
    (query : string) (config : option QueryJobConfig) (thr : Qc)
    (w w1 : World W) (cost : Qc) :
  estimate_query_cost client query run_query_cost_per_tb w = (Returned cost, w1) ->
  (cost <= thr)%Qc ->
  run_query client query config thr w =
    (answered (fst (client_query client query config (warehouse w1))),
     {| warehouse := snd (client_query client query config (warehouse w1));
        stdin := stdin w;
        trace := trace w ++ [EvQuery query (Some dry_run_config);
                             EvQuery query config] |}).
Proof.
  intros He Hc. rewrite (run_query_unprompted _ _ _ _ _ _ _ _ He Hc).
  rewrite call_query_run, (estimate_query_cost_world _ _ _ _ _ _ _ He). simpl.
  rewrite <- app_assoc. reflexivity.
Qed.

(** A dry run reporting 0 bytes: no prompt, the real query runs. *)
Lemma run_query_within_threshold_witness :
  run_query R.client R.constant_query None default_warning_threshold
      (R.start R.fresh []) =
    (Returned {| total_bytes_processed := Some 0; cache_hit := false |},
     {| warehouse :=
          {| R.scan_bytes := R.scan_bytes R.fresh;
             R.result_cache := {[ R.constant_query ]} ∪ ∅;
             R.billing_enabled := true |};
        stdin := [];
        trace := [EvQuery R.constant_query (Some dry_run_config);
                  EvQuery R.constant_query None] |}).
Proof.
  apply (run_query_within_threshold _ R.client R.constant_query None
           default_warning_threshold (R.start R.fresh [])
           (mkWorld R.fresh [] [EvQuery R.constant_query (Some dry_run_config)])
           (Qc_of_Z 0 / Qc_of_Z (1024 ^ 4) * run_query_cost_per_tb)%Qc).
  - vm_compute. reflexivity.
  - vm_compute. discriminate.
Defined.

(** C2.  When the estimated cost exceeds the threshold, [run_query] prompts
    exactly once and reads one line.  The line is affirmative exactly when
    it is [y] or [Y]; then the real query is submitted once.  Any other
    line (the empty one included) ends the run before any submission. *)
Theorem run_query_above_threshold (W : Type) (client : Client W)
    (query : string) (config : option QueryJobConfig) (thr : Qc)
    (w w1 : World W) (cost : Qc) (line : string) (rest : list string) :
  estimate_query_cost client query run_query_cost_per_tb w = (Returned cost, w1) ->
  (thr < cost)%Qc ->
  stdin w = line :: rest ->
  (lower line = "y" <-> line = "y" \/ line = "Y")
  /\ lower "" <> "y"
  /\ (lower line = "y" ->
      run_query client query config thr w =
        (answered (fst (client_query client query config (warehouse w1))),
         {| warehouse := snd (client_query client query config (warehouse w1));
            stdin := rest;
            trace := trace w ++ [EvQuery query (Some dry_run_config);
                                 EvInput (prompt_text cost);
                                 EvQuery query config] |}))
  /\ (lower line <> "y" ->
      run_query client query config thr w =
        (Exited 0,
         {| warehouse := warehouse w1;
            stdin := rest;
            trace := trace w ++ [EvQuery query (Some dry_run_config);
                                 EvInput (prompt_text cost);
                                 EvPrint "Query cancelled."] |})).
Proof.
  intros He Hc Hin.
  pose proof (run_query_prompted _ client query config thr _ _ _ _ _ He Hc Hin) as Hr.
  pose proof (estimate_query_cost_world _ _ _ _ _ _ _ He) as Hw.
  split; [apply lower_is_y |]. split; [discriminate |]. split; intros Hy.
  - rewrite Hr. simpl. rewrite (bool_decide_eq_true_2 _ Hy), call_query_run.
    simpl. rewrite Hw. simpl. rewrite <- !app_assoc. reflexivity.
  - rewrite Hr. simpl. rewrite (bool_decide_eq_false_2 _ Hy).
    unfold log. simpl. rewrite Hw. simpl. rewrite <- !app_assoc. reflexivity.
Qed.

(** One cent against the default threshold, answered [Y]: the query runs. *)
Lemma run_query_above_threshold_witness :
  run_query R.client R.scenes_query None default_warning_threshold
      (R.start R.fresh ["Y"]) =
    (Returned {| total_bytes_processed := Some 1759218604; cache_hit := false |},
     {| warehouse :=
          {| R.scan_bytes := R.scan_bytes R.fresh;
             R.result_cache := {[ R.scenes_query ]} ∪ ∅;
             R.billing_enabled := true |};
        stdin := [];
        trace := [EvQuery R.scenes_query (Some dry_run_config);
                  EvInput "Estimated query cost: $0.0100. Continue? (y/N): ";
                  EvQuery R.scenes_query None] |}).
Proof.
  apply (run_query_above_threshold _ R.client R.scenes_query None
           default_warning_threshold (R.start R.fresh ["Y"])
           (mkWorld R.fresh ["Y"] [EvQuery R.scenes_query (Some dry_run_config)])
           (Qc_of_Z 1759218604 / Qc_of_Z (1024 ^ 4) * run_query_cost_per_tb)%Qc
           "Y" []).
  - vm_compute. reflexivity.
  - vm_compute. reflexivity.
  - reflexivity.
  - reflexivity.
Defined.

(** C3.  Above the threshold, a line that is not affirmative ends the
    process through [sys.exit(0)]: the outcome is an exit with status 0,
    not an exception; the last thing written is the cancellation message;
    the only submission ever made is the dry run, and the warehouse is as
    the dry run left it. *)
Theorem declined_run_exits_cleanly (W : Type) (client : Client W)
    (query : string) (config : option QueryJobConfig) (thr : Qc)
    (w w1 : World W) (cost : Qc) (line : string) (rest : list string) :
  estimate_query_cost client query run_query_cost_per_tb w = (Returned cost, w1) ->
  (thr < cost)%Qc ->
  stdin w = line :: rest ->
  lower line <> "y" ->
  exists w' : World W,
    run_query client query config thr w = (Exited 0, w')
    /\ (forall e, fst (run_query client query config thr w) <> Raised e)
    /\ (forall job, fst (run_query client query config thr w) <> Returned job)
    /\ last (trace w') = Some (EvPrint "Query cancelled.")
    /\ trace w' = trace w ++ [EvQuery query (Some dry_run_config);
                              EvInput (prompt_text cost);
                              EvPrint "Query cancelled."]
    /\ warehouse w' =
         snd (client_query client query (Some dry_run_config) (warehouse w)).
Proof.
  intros He Hc Hin Hn.
  pose proof (run_query_prompted _ client query config thr _ _ _ _ _ He Hc Hin) as Hr.
  simpl in Hr. rewrite (bool_decide_eq_false_2 _ Hn) in Hr.
  pose proof (estimate_query_cost_world _ _ _ _ _ _ _ He) as Hw.
  eexists. split; [exact Hr |]. rewrite Hr. simpl.
  split; [discriminate |]. split; [discriminate |].
  rewrite Hw. simpl. rewrite <- !app_assoc. simpl.
  split; [| split; reflexivity].
  rewrite last_app. reflexivity.
Qed.

(** One cent against the default threshold, answered [n]. *)
Lemma declined_run_exits_cleanly_witness :
  exists w' : World R.State,
    run_query R.client R.scenes_query None default_warning_threshold
        (R.start R.fresh ["n"]) = (Exited 0, w')
    /\ (forall e, fst (run_query R.client R.scenes_query None
                         default_warning_threshold (R.start R.fresh ["n"]))
                  <> Raised e)
    /\ (forall job, fst (run_query R.client R.scenes_query None
                           default_warning_threshold (R.start R.fresh ["n"]))
                    <> Returned job)
    /\ last (trace w') = Some (EvPrint "Query cancelled.")
    /\ trace w' = [EvQuery R.scenes_query (Some dry_run_config);
                   EvInput "Estimated query cost: $0.0100. Continue? (y/N): ";
                   EvPrint "Query cancelled."]
    /\ warehouse w' = R.fresh.
Proof.
  apply (declined_run_exits_cleanly _ R.client R.scenes_query None
           default_warning_threshold (R.start R.fresh ["n"])
           (mkWorld R.fresh ["n"] [EvQuery R.scenes_query (Some dry_run_config)])
           (Qc_of_Z 1759218604 / Qc_of_Z (1024 ^ 4) * run_query_cost_per_tb)%Qc
           "n" []).
  - vm_compute. reflexivity.
  - vm_compute. reflexivity.
  - reflexivity.
  - discriminate.
Defined.

(** ** The estimate *)

Lemma pow_1024_4 : 1024 ^ 4 = 2 ^ 40.
Proof. reflexivity. Qed.





(** The estimate when the dry run answers with a byte count. *)
Lemma estimate_query_cost_bytes (W : Type) (client : Client W)
    (query : string) (P : Qc) (w : World W) (job : QueryJob) (wh : W) (B : Z) :
  client_query client query (Some dry_run_config) (warehouse w) = (inr job, wh) ->
  total_bytes_processed job = Some B ->
  estimate_query_cost client query P w =
    (Returned (Qc_of_Z B / Qc_of_Z (1024 ^ 4) * P)%Qc,
     {| warehouse := wh; stdin := stdin w;
        trace := trace w ++ [EvQuery query (Some dry_run_config)] |}).
Proof.
  intros Hq Hb. unfold estimate_query_cost, bind. rewrite call_query_run, Hq.
  simpl. rewrite Hb. reflexivity.
Qed.

(** ** The estimate in binary64

    Rounding in [SpecFloat]: a mantissa too long for 53 bits is shifted
    right, the bits shifted out deciding the rounding. *)

Lemma digits2_pos_bounds (m : positive) :
  2 ^ (Zpos (digits2_pos m) - 1) <= Zpos m < 2 ^ Zpos (digits2_pos m).
Proof.
  induction m as [m IH | m IH |]; cbn [digits2_pos].
  - rewrite Pos2Z.inj_succ.
    replace (Z.succ (Zpos (digits2_pos m)) - 1) with (Z.succ (Zpos (digits2_pos m) - 1)) by lia.
    rewrite !Z.pow_succ_r by lia. lia.
  - rewrite Pos2Z.inj_succ.
    replace (Z.succ (Zpos (digits2_pos m)) - 1) with (Z.succ (Zpos (digits2_pos m) - 1)) by lia.
    rewrite !Z.pow_succ_r by lia. lia.
  - simpl. lia.
Qed.

Lemma digits2_pos_unique (m : positive) (k : Z) :
  2 ^ (k - 1) <= Zpos m < 2 ^ k -> Zpos (digits2_pos m) = k.
Proof.
  intros [Hlo Hhi]. pose proof (digits2_pos_bounds m) as [Hlo' Hhi'].
  assert (Hk : 0 < k).
  { destruct (Z_lt_le_dec 0 k) as [H | H]; [exact H |].
    exfalso. destruct (Z.eq_dec k 0) as [-> | Hne].
    - simpl in Hhi. lia.
    - rewrite Z.pow_neg_r in Hhi by lia. lia. }
  destruct (Z.lt_trichotomy (Zpos (digits2_pos m)) k) as [H | [H | H]]; [| exact H |]; exfalso.
  - assert (2 ^ Zpos (digits2_pos m) <= 2 ^ (k - 1)) by (apply Z.pow_le_mono_r; lia). lia.
  - assert (2 ^ k <= 2 ^ (Zpos (digits2_pos m) - 1)) by (apply Z.pow_le_mono_r; lia). lia.
Qed.

Lemma iter_pos_nat {A : Type} (f : A -> A) (p : positive) (x : A) :
  SpecFloat.iter_pos f p x = Nat.iter (Pos.to_nat p) f x.
Proof.
  revert x. induction p as [p IH | p IH |]; intros x; cbn [SpecFloat.iter_pos].
  - rewrite !IH, Pos2Nat.inj_xI.
    replace (S (2 * Pos.to_nat p)) with (Pos.to_nat p + (Pos.to_nat p + 1))%nat by lia.
    rewrite !Nat.iter_add. reflexivity.
  - rewrite !IH, Pos2Nat.inj_xO.
    replace (2 * Pos.to_nat p)%nat with (Pos.to_nat p + Pos.to_nat p)%nat by lia.
    rewrite Nat.iter_add. reflexivity.
  - reflexivity.
Qed.

Lemma shr_1_nonneg (m : Z) (r s : bool) :
  0 <= m ->
  shr_1 {| shr_m := m; shr_r := r; shr_s := s |} =
    {| shr_m := m / 2; shr_r := Z.odd m; shr_s := r || s |}.
Proof.
  intros Hm. destruct m as [| p | p]; [reflexivity | | lia].
  destruct p as [p | p |]; cbn [shr_1].
  - replace (Z.pos p~1 / 2) with (Z.pos p); [reflexivity |].
    apply (Z.div_unique_pos _ 2 _ 1); lia.
  - replace (Z.pos p~0 / 2) with (Z.pos p); [reflexivity |].
    apply (Z.div_unique_pos _ 2 _ 0); lia.
  - reflexivity.
Qed.

(** [n] shifts of an exact mantissa: the quotient, and where the remainder
    lies with respect to the half. *)
Lemma shr_iter (m0 : Z) (n : nat) :
  0 <= m0 ->
  let mrs := Nat.iter n shr_1 {| shr_m := m0; shr_r := false; shr_s := false |} in
  let T := 2 ^ Z.of_nat n in
  let rem := m0 mod T in
  shr_m mrs = m0 / T
  /\ (shr_r mrs = true <-> T <= 2 * rem)
  /\ (shr_s mrs = true <-> rem <> 0 /\ 2 * rem <> T).
Proof.
  intros Hm. induction n as [| n IH].
  - simpl. rewrite Z.div_1_r, Z.mod_1_r. simpl.
    split; [reflexivity |]. split; split; try discriminate; lia.
  - cbn zeta in IH |- *. rewrite Nat2Z.inj_succ, Z.pow_succ_r by lia.
    rewrite Nat.iter_succ.
    destruct (Nat.iter n shr_1 _) as [q r s]. cbn [shr_m shr_r shr_s] in IH.
    destruct IH as (Hq & Hr & Hs).
    set (T := 2 ^ Z.of_nat n) in *.
    assert (HT : 0 < T) by (apply Z.pow_pos_nonneg; lia).
    assert (Hq0 : 0 <= q) by (rewrite Hq; apply Z.div_pos; lia).
    rewrite shr_1_nonneg by exact Hq0. cbn [shr_m shr_r shr_s].
    pose proof (Z.div_mod m0 T ltac:(lia)) as Hdm.
    pose proof (Z.mod_pos_bound m0 T HT) as Hrem.
    rewrite <- Hq in Hdm.
    pose proof (Z.div_mod q 2 ltac:(lia)) as Hq2.
    pose proof (Z.mod_pos_bound q 2 ltac:(lia)) as Hb.
    assert (Hdiv : m0 / (2 * T) = q / 2).
    { rewrite (Z.mul_comm 2 T), <- Z.div_div by lia. rewrite <- Hq. reflexivity. }
    assert (Hmod : m0 mod (2 * T) = T * (q mod 2) + m0 mod T).
    { rewrite (Z.mul_comm 2 T), Z.rem_mul_r by lia. rewrite <- Hq. lia. }
    rewrite Hdiv, Hmod.
    assert (Hodd : Z.odd q = true <-> q mod 2 = 1).
    { rewrite Zodd_mod. destruct (Z.eqb_spec (q mod 2) 1); split; try discriminate; auto; lia. }
    clear Hq2 Hdiv Hmod Hdm.
    split; [reflexivity |].
    assert (q mod 2 = 0 \/ q mod 2 = 1) as [Hz | Hz] by lia; rewrite Hz in *;
      rewrite ?Z.mul_0_r, ?Z.mul_1_r, ?Z.add_0_l.
    + split.
      * rewrite Hodd. split; intros H; lia.
      * rewrite orb_true_iff, Hr, Hs. split.
        -- intros [H | [H1 H2]]; split; lia.
        -- intros [H1 H2]. lia.
    + split.
      * rewrite Hodd. split; intros H; lia.
      * rewrite orb_true_iff, Hr, Hs. split.
        -- intros [H | [H1 H2]]; split; lia.
        -- intros [H1 H2]. lia.
Qed.

Lemma fexp_normal (k : Z) : -1021 <= k -> fexp 53 1024 k = k - 53.
Proof. intros H. unfold fexp, emin. lia. Qed.

(** Rounding to nearest, ties to even, after [n] shifts. *)
Lemma round_after_shift (m0 : Z) (n : nat) :
  0 <= m0 ->
  let mrs := Nat.iter n shr_1 {| shr_m := m0; shr_r := false; shr_s := false |} in
  let T := 2 ^ Z.of_nat n in
  let m2 := round_nearest_even (shr_m mrs) (loc_of_shr_record mrs) in
  m0 / T <= m2 <= m0 / T + 1 /\ - T <= 2 * (m2 * T - m0) <= T.
Proof.
  intros Hm. pose proof (shr_iter m0 n Hm) as H. cbn zeta in H |- *.
  destruct (Nat.iter n shr_1 _) as [q r s]. cbn [shr_m shr_r shr_s] in H.
  destruct H as (Hq & Hr & Hs).
  set (T := 2 ^ Z.of_nat n) in *.
  assert (HT : 0 < T) by (apply Z.pow_pos_nonneg; lia).
  pose proof (Z.div_mod m0 T ltac:(lia)) as Hdm.
  pose proof (Z.mod_pos_bound m0 T HT) as Hrem.
  rewrite <- Hq in *. cbn [shr_m].
  set (rem := m0 mod T) in *.
  assert (Hmul : forall x, x * T - m0 = (x - q) * T - rem) by (intros x; lia).
  destruct r, s; cbn [loc_of_shr_record round_nearest_even].
  - assert (T <= 2 * rem) by (apply Hr; reflexivity).
    split; [lia |]. rewrite Hmul. replace (q + 1 - q) with 1 by lia. lia.
  - assert (T <= 2 * rem) by (apply Hr; reflexivity).
    assert (2 * rem = T).
    { destruct (Z.eq_dec (2 * rem) T) as [E | E]; [exact E |].
      assert (false = true) by (apply Hs; split; lia). discriminate. }
    destruct (Z.even q).
    + split; [lia |]. rewrite Hmul. replace (q - q) with 0 by lia. lia.
    + split; [lia |]. rewrite Hmul. replace (q + 1 - q) with 1 by lia. lia.
  - assert (~ T <= 2 * rem) by (intros H; apply Hr in H; discriminate).
    split; [lia |]. rewrite Hmul. replace (q - q) with 0 by lia. lia.
  - assert (~ T <= 2 * rem) by (intros H; apply Hr in H; discriminate).
    split; [lia |]. rewrite Hmul. replace (q - q) with 0 by lia. lia.
Qed.

(** [binary_round_aux] on an exact mantissa of at least 53 bits, in the
    range of the normal numbers: the result is a normal number within half
    a unit in the last place. *)
Lemma binary_round_aux_normal (s : bool) (m : positive) (e : Z) :
  let d := Zpos (digits2_pos m) in
  53 <= d -> -1074 <= d + e - 53 -> d + e <= 1023 ->
  exists (m' : positive) (e' : Z),
    binary_round_aux 53 1024 s (Zpos m) e loc_Exact = S754_finite s m' e'
    /\ Zpos (digits2_pos m') = 53
    /\ d + e - 53 <= e' <= d + e - 52
    /\ (d = 53 -> m' = m /\ e' = e)
    /\ - Zpos m <= 2 ^ 53 * (Zpos m' * 2 ^ (e' - e) - Zpos m) <= Zpos m.
Proof.
  intros d Hd Hlo Hhi.
  unfold binary_round_aux, shr_fexp. cbn [Zdigits2 shr_record_of_loc]. fold d.
  rewrite fexp_normal by lia.
  replace (d + e - 53 - e) with (d - 53) by lia.
  change (2 ^ 53) with 9007199254740992.
  destruct (d - 53) as [| p | p] eqn:Hn; [| | lia].
  - cbn [shr shr_m loc_of_shr_record round_nearest_even Zdigits2]. fold d.
    rewrite fexp_normal by lia.
    replace (d + e - 53 - e) with 0 by lia.
    cbn [shr shr_m].
    replace (e <=? 1024 - 53) with true by (symmetry; apply Z.leb_le; lia).
    exists m, e. split; [reflexivity |]. split; [fold d; lia |].
    split; [lia |]. split; [auto |].
    rewrite Z.sub_diag. simpl (2 ^ 0). lia.
  - cbn [shr]. rewrite iter_pos_nat.
    pose proof (round_after_shift (Zpos m) (Pos.to_nat p) ltac:(lia)) as H.
    cbn zeta in H. rewrite positive_nat_Z in H.
    set (m2 := round_nearest_even _ _) in *.
    set (T := 2 ^ Zpos p) in *.
    assert (HT : 0 < T) by (apply Z.pow_pos_nonneg; lia).
    destruct H as (Hm2 & Herr).
    pose proof (digits2_pos_bounds m) as Hb. fold d in Hb.
    assert (E1 : 2 ^ (d - 1) = 4503599627370496 * T).
    { replace (d - 1) with (52 + Zpos p) by lia. apply Z.pow_add_r; lia. }
    assert (E2 : 2 ^ d = 9007199254740992 * T).
    { replace d with (53 + Zpos p) by lia. apply Z.pow_add_r; lia. }
    rewrite E1, E2 in Hb. clear E1 E2.
    assert (Hq : 4503599627370496 <= Zpos m / T < 9007199254740992).
    { split; [apply Z.div_le_lower_bound; lia | apply Z.div_lt_upper_bound; lia]. }
    clearbody m2. destruct m2 as [| m2 | m2]; [lia | | lia].
    destruct (Z_lt_le_dec (Zpos m2) 9007199254740992) as [Hlt | Hge].
    + assert (Hd2 : Zpos (digits2_pos m2) = 53).
      { apply digits2_pos_unique.
        change (2 ^ (53 - 1)) with 4503599627370496.
        change (2 ^ 53) with 9007199254740992. lia. }
      cbn [Zdigits2]. rewrite Hd2, fexp_normal by lia.
      replace (53 + (e + Zpos p) - 53 - (e + Zpos p)) with 0 by lia.
      cbn [shr shr_m].
      replace (e + Zpos p <=? 1024 - 53) with true by (symmetry; apply Z.leb_le; lia).
      exists m2, (e + Zpos p). split; [reflexivity |]. split; [exact Hd2 |].
      split; [lia |]. split; [lia |].
      replace (e + Zpos p - e) with (Zpos p) by lia. fold T. lia.
    + assert (Em : m2 = 9007199254740992%positive) by lia. subst m2.
      cbn [Zdigits2].
      change (Zpos (digits2_pos 9007199254740992)) with 54.
      rewrite fexp_normal by lia.
      replace (54 + (e + Zpos p) - 53 - (e + Zpos p)) with 1 by lia.
      cbn [shr SpecFloat.iter_pos]. cbn [shr_1 shr_m].
      replace (e + Zpos p + 1 <=? 1024 - 53) with true by (symmetry; apply Z.leb_le; lia).
      exists 4503599627370496%positive, (e + Zpos p + 1).
      split; [reflexivity |]. split; [reflexivity |].
      split; [lia |]. split; [lia |].
      replace (e + Zpos p + 1 - e) with (Zpos p + 1) by lia.
      rewrite Z.pow_add_r by lia. fold T. simpl (2 ^ 1). lia.
Qed.

(** Powers of two and values. *)

Lemma Qc_of_Z_pos (n : Z) : 0 < n -> (Q2Qc 0 < Qc_of_Z n)%Qc.
Proof. intros H. rewrite <- Z2Qc_inj_0. apply (proj1 (Z2Qc_inj_lt _ _)). exact H. Qed.

Lemma Qc_of_Z_pow2_pos (k : Z) : 0 <= k -> (Q2Qc 0 < Qc_of_Z (2 ^ k))%Qc.
Proof. intros H. apply Qc_of_Z_pos. apply Z.pow_pos_nonneg; lia. Qed.

Lemma Qc_of_Z_pow2_nonzero (k : Z) : 0 <= k -> Qc_of_Z (2 ^ k) <> Q2Qc 0.
Proof.
  intros H E. pose proof (Qc_of_Z_pow2_pos k H) as Hp.
  apply Qclt_not_eq in Hp. apply Hp. symmetry. exact E.
Qed.

Lemma pow2_frac (p q e : Z) :
  0 <= p -> 0 <= q -> p - q = e ->
  pow2 e = (Qc_of_Z (2 ^ p) / Qc_of_Z (2 ^ q))%Qc.
Proof.
  intros Hp Hq He. unfold pow2.
  assert (H : (Qc_of_Z (2 ^ Z.max 0 e) * Qc_of_Z (2 ^ q) =
               Qc_of_Z (2 ^ p) * Qc_of_Z (2 ^ Z.max 0 (- e)))%Qc).
  { rewrite <- !Z2Qc_inj_mul, <- !Z.pow_add_r by lia. do 2 f_equal. lia. }
  pose proof (Qc_of_Z_pow2_nonzero q Hq) as Nq.
  pose proof (Qc_of_Z_pow2_nonzero (Z.max 0 (- e)) ltac:(lia)) as Ne.
  transitivity (Qc_of_Z (2 ^ Z.max 0 e) * Qc_of_Z (2 ^ q) /
                (Qc_of_Z (2 ^ q) * Qc_of_Z (2 ^ Z.max 0 (- e))))%Qc.
  - field. split; assumption.
  - rewrite H. field. split; assumption.
Qed.

Lemma pow2_nonneg (e : Z) : 0 <= e -> pow2 e = Qc_of_Z (2 ^ e).
Proof.
  intros H. rewrite (pow2_frac e 0 e) by lia. change (2 ^ 0) with 1.
  rewrite Z2Qc_inj_1. field. discriminate.
Qed.

Lemma pow2_pos (e : Z) : (Q2Qc 0 < pow2 e)%Qc.
Proof.
  unfold pow2, Qcdiv. apply Qcmult_pos_pos.
  - apply Qc_of_Z_pow2_pos. lia.
  - apply Qcinv_pos. apply Qc_of_Z_pow2_pos. lia.
Qed.

Lemma pow2_add (a b : Z) : pow2 (a + b) = (pow2 a * pow2 b)%Qc.
Proof.
  rewrite (pow2_frac (Z.max 0 a + Z.max 0 b) (Z.max 0 (- a) + Z.max 0 (- b)) (a + b))
    by lia.
  unfold pow2. rewrite !Z.pow_add_r, !Z2Qc_inj_mul by lia.
  field. split; apply Qc_of_Z_pow2_nonzero; lia.
Qed.

Lemma magnitude_pos (m : positive) (e : Z) : (Q2Qc 0 < magnitude m e)%Qc.
Proof. apply Qcmult_pos_pos; [apply Qc_of_Z_pos; lia | apply pow2_pos]. Qed.

Lemma magnitude_shift (m : positive) (e k : Z) :
  0 <= k -> (Qc_of_Z (Zpos m * 2 ^ k) * pow2 e)%Qc = magnitude m (e + k).
Proof.
  intros Hk. unfold magnitude.
  rewrite Z2Qc_inj_mul, (Z.add_comm e k), pow2_add, (pow2_nonneg k) by exact Hk.
  ring.
Qed.

Lemma digits2_pos_le (b : positive) (k : Z) :
  0 <= k -> Zpos b < 2 ^ k -> Zpos (digits2_pos b) <= k.
Proof.
  intros Hk Hb. pose proof (digits2_pos_bounds b) as [Hlo _].
  destruct (Z_le_gt_dec (Zpos (digits2_pos b)) k) as [H | H]; [exact H |].
  assert (2 ^ k <= 2 ^ (Zpos (digits2_pos b) - 1)) by (apply Z.pow_le_mono_r; lia).
  lia.
Qed.

Lemma pow2_m53 : (Qc_of_Z (2 ^ 53) * pow2 (-53))%Qc = 1%Qc.
Proof.
  rewrite (pow2_frac 0 53 (-53)) by lia. change (2 ^ 0) with 1.
  rewrite Z2Qc_inj_1. field. apply Qc_of_Z_pow2_nonzero. lia.
Qed.

(** The rounding of [binary_round_aux_normal], read on the values. *)
Lemma binary_round_aux_value (s : bool) (m : positive) (e : Z) :
  let d := Zpos (digits2_pos m) in
  53 <= d -> -1074 <= d + e - 53 -> d + e <= 1023 ->
  exists (m' : positive) (e' : Z),
    binary_round_aux 53 1024 s (Zpos m) e loc_Exact = S754_finite s m' e'
    /\ Zpos (digits2_pos m') = 53
    /\ d + e - 53 <= e' <= d + e - 52
    /\ (d = 53 -> m' = m /\ e' = e)
    /\ (Qcabs.Qcabs (magnitude m' e' - magnitude m e)
        <= pow2 (-53) * magnitude m e)%Qc.
Proof.
  intros d Hd Hlo Hhi.
  destruct (binary_round_aux_normal s m e Hd Hlo Hhi)
    as (m' & e' & Hr & Hd' & He' & Hex & Herr).
  fold d in He', Hex.
  exists m', e'. do 4 (split; [assumption |]).
  set (k := e' - e) in *. assert (Hk : 0 <= k) by (unfold k; lia).
  set (X := Zpos m' * 2 ^ k - Zpos m) in *.
  assert (HX : (magnitude m' e' - magnitude m e)%Qc = (Qc_of_Z X * pow2 e)%Qc).
  { replace e' with (e + k) by (unfold k; lia).
    rewrite <- magnitude_shift by exact Hk. unfold X, magnitude.
    rewrite Z2Qc_inj_sub. ring. }
  rewrite HX. apply Qcabs.Qcabs_Qcle_condition.
  pose proof (Qc_of_Z_pow2_pos 53 ltac:(lia)) as HK.
  pose proof (pow2_pos e) as He. apply Qclt_le_weak in He.
  destruct Herr as [Hl Hu].
  apply (proj1 (Z2Qc_inj_le _ _)) in Hl, Hu.
  rewrite Z2Qc_inj_mul in Hl, Hu. rewrite Z2Qc_inj_opp in Hl.
  assert (HXu : (Qc_of_Z X <= pow2 (-53) * Qc_of_Z (Zpos m))%Qc).
  { apply (proj2 (Qcmult_le_mono_pos_l _ _ _ HK)).
    replace (Qc_of_Z (2 ^ 53) * (pow2 (-53) * Qc_of_Z (Zpos m)))%Qc
      with ((Qc_of_Z (2 ^ 53) * pow2 (-53)) * Qc_of_Z (Zpos m))%Qc by ring.
    rewrite pow2_m53, Qcmult_1_l. exact Hu. }
  assert (HXl : (- (pow2 (-53) * Qc_of_Z (Zpos m)) <= Qc_of_Z X)%Qc).
  { apply (proj2 (Qcmult_le_mono_pos_l _ _ _ HK)).
    replace (Qc_of_Z (2 ^ 53) * - (pow2 (-53) * Qc_of_Z (Zpos m)))%Qc
      with (- ((Qc_of_Z (2 ^ 53) * pow2 (-53)) * Qc_of_Z (Zpos m)))%Qc by ring.
    rewrite pow2_m53, Qcmult_1_l. exact Hl. }
  unfold magnitude. split.
  - replace (- (pow2 (-53) * (Qc_of_Z (Zpos m) * pow2 e)))%Qc
      with (- (pow2 (-53) * Qc_of_Z (Zpos m)) * pow2 e)%Qc by ring.
    apply Qcmult_le_compat_r; assumption.
  - replace (pow2 (-53) * (Qc_of_Z (Zpos m) * pow2 e))%Qc
      with (pow2 (-53) * Qc_of_Z (Zpos m) * pow2 e)%Qc by ring.
    apply Qcmult_le_compat_r; assumption.
Qed.

Lemma Pos_iter_xO (b p : positive) : Zpos (Pos.iter xO b p) = Zpos b * 2 ^ Zpos p.
Proof.
  rewrite (Pos.iter_swap_gen _ _ Zpos xO (Z.mul 2)) by reflexivity.
  change (Pos.iter (Z.mul 2) (Zpos b) p) with (Z.shiftl (Zpos b) (Zpos p)).
  apply Z.shiftl_mul_pow2. lia.
Qed.

(** [shl_align] brings a short mantissa to 53 bits without changing the
    value. *)
Lemma shl_align_normal (b : positive) (e : Z) :
  let db := Zpos (digits2_pos b) in
  -1021 <= db + e ->
  exists (mz : positive) (ez : Z),
    shl_align b e (fexp 53 1024 (db + e)) = (mz, ez)
    /\ Zpos (digits2_pos mz) = Z.max db 53
    /\ Z.max db 53 + ez = db + e
    /\ magnitude mz ez = magnitude b e.
Proof.
  intros db Hlo. rewrite fexp_normal by exact Hlo. unfold shl_align.
  replace (db + e - 53 - e) with (db - 53) by lia.
  destruct (db - 53) as [| p | p] eqn:Hn.
  - exists b, e. split; [reflexivity |]. fold db. split; [lia |]. split; [lia | reflexivity].
  - exists b, e. split; [reflexivity |]. fold db. split; [lia |]. split; [lia | reflexivity].
  - exists (Pos.iter xO b p), (db + e - 53). split; [reflexivity |].
    pose proof (digits2_pos_bounds b) as Hb. fold db in Hb.
    assert (Hz : Zpos (Pos.iter xO b p) = Zpos b * 2 ^ Zpos p) by apply Pos_iter_xO.
    assert (HT : 0 < 2 ^ Zpos p) by (apply Z.pow_pos_nonneg; lia).
    assert (Hdb : 0 < db) by (unfold db; lia).
    split; [| split; [lia |]].
    + replace (Z.max db 53) with 53 by lia. apply digits2_pos_unique. rewrite Hz.
      assert (E1 : 2 ^ (53 - 1) = 2 ^ (db - 1) * 2 ^ Zpos p).
      { replace (53 - 1) with ((db - 1) + Zpos p) by lia. apply Z.pow_add_r; lia. }
      assert (E2 : 2 ^ 53 = 2 ^ db * 2 ^ Zpos p).
      { replace 53 with (db + Zpos p) at 1 by lia. apply Z.pow_add_r; lia. }
      rewrite E1, E2. nia.
    + unfold magnitude at 1. rewrite Hz, magnitude_shift by lia.
      f_equal. lia.
Qed.

Lemma magnitude_mul (m1 m2 : positive) (e1 e2 : Z) :
  magnitude (m1 * m2) (e1 + e2) = (magnitude m1 e1 * magnitude m2 e2)%Qc.
Proof.
  unfold magnitude. rewrite Pos2Z.inj_mul, Z2Qc_inj_mul, pow2_add. ring.
Qed.

(** Two roundings in a row, each within [u] of its argument. *)
Lemma two_roundings (u x q P c : Qc) :
  (Q2Qc 0 <= u)%Qc -> (Q2Qc 0 <= P)%Qc ->
  (Qcabs.Qcabs (q - x) <= u * x)%Qc ->
  (Qcabs.Qcabs (c - q * P) <= u * (q * P))%Qc ->
  (Qcabs.Qcabs (c - x * P) <= (u + u + u * u) * (x * P))%Qc.
Proof.
  intros Hu HP H1 H2.
  apply Qcabs.Qcabs_Qcle_condition in H1, H2. apply Qcabs.Qcabs_Qcle_condition.
  destruct H1 as [L1 U1], H2 as [L2 U2].
  assert (Hq : (q <= x + u * x)%Qc).
  { replace q with ((q - x) + x)%Qc by ring.
    replace (x + u * x)%Qc with (u * x + x)%Qc by ring.
    apply Qcplus_le_compat; [exact U1 | apply Qcle_refl]. }
  assert (Hb : (u * (q * P) <= u * ((x + u * x) * P))%Qc).
  { apply Qcmult_le_mono_nonneg_l; [exact Hu |].
    apply Qcmult_le_compat_r; assumption. }
  replace (c - x * P)%Qc with ((c - q * P) + (q - x) * P)%Qc by ring.
  split.
  - replace (- ((u + u + u * u) * (x * P)))%Qc
      with (- (u * ((x + u * x) * P)) + - (u * x) * P)%Qc by ring.
    apply Qcplus_le_compat.
    + eapply Qcle_trans; [| exact L2]. apply Qcopp_le_compat. exact Hb.
    + apply Qcmult_le_compat_r; assumption.
  - replace ((u + u + u * u) * (x * P))%Qc
      with (u * ((x + u * x) * P) + (u * x) * P)%Qc by ring.
    apply Qcplus_le_compat.
    + eapply Qcle_trans; [exact U2 | exact Hb].
    + apply Qcmult_le_compat_r; assumption.
Qed.

Lemma pow2_m40 (B : Z) :
  (Qc_of_Z B * pow2 (-40))%Qc = (Qc_of_Z B / Qc_of_Z (2 ^ 40))%Qc.
Proof.
  rewrite (pow2_frac 0 40 (-40)) by lia. change (2 ^ 0) with 1.
  rewrite Z2Qc_inj_1. field. apply Qc_of_Z_pow2_nonzero. lia.
Qed.

Lemma pow2_m52 : (pow2 (-53) + pow2 (-53))%Qc = pow2 (-52).
Proof.
  change (-52) with (1 + -53). rewrite pow2_add, (pow2_nonneg 1) by lia.
  change (2 ^ 1) with 2. rewrite Z2Qc_inj_2. ring.
Qed.

Lemma pow2_m106 : (pow2 (-53) * pow2 (-53))%Qc = pow2 (-106).
Proof. rewrite <- pow2_add. reflexivity. Qed.

(** The quotient [B / 2 ** 40] for a positive byte count below [2^64]: a
    normal float within half a unit in the last place of the exact
    quotient, and the exact quotient when the count is below [2^53]. *)
Lemma int_truediv_pow2_bytes (b : positive) :
  Zpos b < 2 ^ 64 ->
  exists (m1 : positive) (e1 : Z),
    int_truediv_pow2 (Zpos b) 40 = inr (S754_finite false m1 e1)
    /\ Zpos (digits2_pos m1) = 53
    /\ -92 <= e1 <= -28
    /\ (Qcabs.Qcabs (magnitude m1 e1 - magnitude b (-40))
        <= pow2 (-53) * magnitude b (-40))%Qc
    /\ (Zpos b < 2 ^ 53 -> magnitude m1 e1 = magnitude b (-40)).
Proof.
  intros Hb. unfold int_truediv_pow2, binary_normalize, binary_round, prec, emax.
  change (Z.opp 40) with (Zneg 40).
  pose proof (digits2_pos_le b 64 ltac:(lia) Hb) as Hdb.
  set (db := Zpos (digits2_pos b)) in *.
  assert (Hdb0 : 0 < db) by (unfold db; lia).
  destruct (shl_align_normal b (-40) ltac:(fold db; lia)) as (mz & ez & Hs & Hdz & Hez & Hmag).
  fold db in Hs, Hdz, Hez. rewrite Hs.
  destruct (binary_round_aux_value false mz ez) as (m1 & e1 & Hr & Hd1 & He1 & Hex & Herr);
    [lia | lia | lia |].
  rewrite Hr. exists m1, e1. split; [reflexivity |]. split; [exact Hd1 |].
  split; [lia |]. rewrite <- Hmag. split; [exact Herr |].
  intros Hsmall.
  pose proof (digits2_pos_le b 53 ltac:(lia) Hsmall) as Hd53. fold db in Hd53.
  destruct Hex as [-> ->]; [lia | reflexivity].
Qed.

(** The product of two normal floats away from overflow and underflow is
    within half a unit in the last place of the exact product. *)
Lemma float_mul_normal (s1 s2 : bool) (m1 m2 : positive) (e1 e2 : Z) :
  Zpos (digits2_pos m1) = 53 -> Zpos (digits2_pos m2) = 53 ->
  -1126 <= e1 + e2 <= 917 ->
  exists (m' : positive) (e' : Z),
    float_mul (S754_finite s1 m1 e1) (S754_finite s2 m2 e2) =
      S754_finite (xorb s1 s2) m' e'
    /\ (Qcabs.Qcabs (magnitude m' e' - magnitude m1 e1 * magnitude m2 e2)
        <= pow2 (-53) * (magnitude m1 e1 * magnitude m2 e2))%Qc.
Proof.
  intros H1 H2 He. unfold float_mul, SFmul, prec, emax.
  pose proof (digits2_pos_bounds m1) as B1. pose proof (digits2_pos_bounds m2) as B2.
  rewrite H1 in B1. rewrite H2 in B2.
  change (2 ^ (53 - 1)) with 4503599627370496 in B1, B2.
  change (2 ^ 53) with 9007199254740992 in B1, B2.
  assert (Hp : 2 ^ 104 <= Zpos (m1 * m2) < 2 ^ 106).
  { rewrite Pos2Z.inj_mul.
    change (2 ^ 104) with (4503599627370496 * 4503599627370496).
    change (2 ^ 106) with (9007199254740992 * 9007199254740992). nia. }
  pose proof (digits2_pos_le (m1 * m2) 106 ltac:(lia) (proj2 Hp)) as Hhi.
  pose proof (digits2_pos_bounds (m1 * m2)) as Bp.
  set (d := Zpos (digits2_pos (m1 * m2))) in *.
  assert (Hlo : 105 <= d).
  { destruct (Z_le_gt_dec 105 d) as [H | H]; [exact H |].
    assert (0 < d) by (unfold d; lia).
    assert (2 ^ d <= 2 ^ 104) by (apply Z.pow_le_mono_r; lia). lia. }
  destruct (binary_round_aux_value (xorb s1 s2) (m1 * m2) (e1 + e2))
    as (m' & e' & Hr & _ & _ & _ & Herr); [fold d; lia | fold d; lia | fold d; lia |].
  exists m', e'. split; [exact Hr |]. rewrite <- magnitude_mul. exact Herr.
Qed.

Lemma Qcabs_of_nonneg_mul (x P : Qc) :
  (Q2Qc 0 <= x)%Qc -> (Q2Qc 0 <= P)%Qc -> Qcabs.Qcabs (x * P) = (x * P)%Qc.
Proof. intros Hx HP. apply Qcabs.Qcabs_pos. apply Qcmult_nonneg_nonneg; assumption. Qed.

Lemma signed_bound (s : bool) (eps c x Pm : Qc) :
  (Q2Qc 0 <= x)%Qc -> (Q2Qc 0 <= Pm)%Qc ->
  (Qcabs.Qcabs (c - x * Pm) <= eps * (x * Pm))%Qc ->
  (Qcabs.Qcabs ((if s then - c else c) - x * (if s then - Pm else Pm))
   <= eps * Qcabs.Qcabs (x * (if s then - Pm else Pm)))%Qc.
Proof.
  intros Hx HP H. destruct s.
  - replace (- c - x * - Pm)%Qc with (- (c - x * Pm))%Qc by ring.
    replace (x * - Pm)%Qc with (- (x * Pm))%Qc by ring.
    rewrite !Qcabs.Qcabs_opp, (Qcabs_of_nonneg_mul x Pm) by assumption. exact H.
  - rewrite (Qcabs_of_nonneg_mul x Pm) by assumption. exact H.
Qed.

Lemma zero_cost_bound (eps exact : Qc) :
  exact = Q2Qc 0 ->
  (Qcabs.Qcabs (Q2Qc 0 - exact) <= eps * Qcabs.Qcabs exact)%Qc.
Proof.
  intros ->. replace (Q2Qc 0 - Q2Qc 0)%Qc with (Q2Qc 0) by ring.
  rewrite Qcabs.Qcabs_pos by apply Qcle_refl. rewrite Qcmult_0_r. apply Qcle_refl.
Qed.

(** The arithmetic of the estimator: for a byte count below [2^64] and a
    price in range the quotient is a float and the product with the price
    is within [2^-52 + 2^-106] (relative) of the exact cost; within [2^-53]
    when the byte count is below [2^53]. *)
Lemma cost_arithmetic (B : Z) (P : spec_float) :
  0 <= B < 2 ^ 64 ->
  price_in_range P = true ->
  exists terabytes : spec_float,
    int_truediv_pow2 B 40 = inr terabytes
    /\ is_finite (float_mul terabytes P) = true
    /\ (Qcabs.Qcabs (float_value (float_mul terabytes P)
                     - Qc_of_Z B / Qc_of_Z (2 ^ 40) * float_value P)
        <= (pow2 (-52) + pow2 (-106))
           * Qcabs.Qcabs (Qc_of_Z B / Qc_of_Z (2 ^ 40) * float_value P))%Qc
    /\ (B < 2 ^ 53 ->
        (Qcabs.Qcabs (float_value (float_mul terabytes P)
                      - Qc_of_Z B / Qc_of_Z (2 ^ 40) * float_value P)
         <= pow2 (-53)
            * Qcabs.Qcabs (Qc_of_Z B / Qc_of_Z (2 ^ 40) * float_value P))%Qc)
    /\ (B = 0 -> float_value (float_mul terabytes P) = Q2Qc 0).
Proof.
  intros HB HP. destruct B as [| b | b]; [| | lia].
  - exists (S754_zero false). split; [reflexivity |].
    assert (E : forall p : Qc, (Qc_of_Z 0 / Qc_of_Z (2 ^ 40) * p)%Qc = Q2Qc 0).
    { intros p. rewrite Z2Qc_inj_0. unfold Qcdiv. rewrite !Qcmult_0_l. reflexivity. }
    destruct P as [sP | sP | | sP mP eP]; try discriminate HP.
    + split; [reflexivity |]. change (float_value (float_mul _ _)) with (Q2Qc 0).
      split; [apply zero_cost_bound, E |].
      split; [intros _; apply zero_cost_bound, E | reflexivity].
    + split; [reflexivity |]. change (float_value (float_mul _ _)) with (Q2Qc 0).
      split; [apply zero_cost_bound, E |].
      split; [intros _; apply zero_cost_bound, E | reflexivity].
  - destruct (int_truediv_pow2_bytes b (proj2 HB))
      as (m1 & e1 & Hq & Hd1 & He1 & Herr1 & Hex1).
    exists (S754_finite false m1 e1). split; [exact Hq |].
    rewrite <- pow2_m40. fold (magnitude b (-40)).
    set (x := magnitude b (-40)) in *. set (q := magnitude m1 e1) in *.
    assert (Hx : (Q2Qc 0 <= x)%Qc) by apply Qclt_le_weak, magnitude_pos.
    destruct P as [sP | sP | | sP mP eP]; try discriminate HP.
    + split; [reflexivity |]. change (float_value (float_mul _ _)) with (Q2Qc 0).
      assert (E : (x * float_value (S754_zero sP))%Qc = Q2Qc 0) by apply Qcmult_0_r.
      split; [apply zero_cost_bound, E |].
      split; [intros _; apply zero_cost_bound, E | reflexivity].
    + cbn [price_in_range] in HP. unfold prec in HP.
      apply andb_prop in HP. destruct HP as [HP HP3].
      apply andb_prop in HP. destruct HP as [HP1 HP2].
      apply Z.eqb_eq in HP1. apply Z.leb_le in HP2, HP3.
      destruct (float_mul_normal false sP m1 mP e1 eP Hd1 HP1 ltac:(lia))
        as (m' & e' & Hr & Herr2).
      rewrite Hr. cbn [xorb float_value is_finite]. fold q in Herr2.
      set (Pm := magnitude mP eP) in *. set (c := magnitude m' e') in *.
      assert (HPm : (Q2Qc 0 <= Pm)%Qc) by apply Qclt_le_weak, magnitude_pos.
      assert (Hu : (Q2Qc 0 <= pow2 (-53))%Qc) by apply Qclt_le_weak, pow2_pos.
      split; [reflexivity |]. split; [| split; [| discriminate]].
      * apply signed_bound; [exact Hx | exact HPm |].
        rewrite <- pow2_m52, <- pow2_m106.
        apply (two_roundings _ x q Pm c); assumption.
      * intros Hsmall. apply signed_bound; [exact Hx | exact HPm |].
        rewrite <- (Hex1 Hsmall). exact Herr2.
Qed.

(** Outside the price range the bound has no reason to hold: at 0 bytes
    an infinite price gives NaN, not 0. *)
Remark zero_bytes_infinite_price :
  int_truediv_pow2 0 40 = inr (S754_zero false)
  /\ float_mul (S754_zero false) (S754_infinity false) = S754_nan.
Proof. split; reflexivity. Qed.

(** The result is not the exact cost in general: 3 bytes at the price 0.1
    (the float [7205759403792794 * 2^-56]) give [5404319552844596 * 2^-94],
    which is [2^-95] above the exact product. *)
Example three_bytes_at_a_tenth :
  int_truediv_pow2 3 40 = inr (S754_finite false 6755399441055744 (-91))
  /\ float_mul (S754_finite false 6755399441055744 (-91)) float_0_1 =
       S754_finite false 5404319552844596 (-94)
  /\ float_value (S754_finite false 5404319552844596 (-94)) <>
       (Qc_of_Z 3 / Qc_of_Z (2 ^ 40) * float_value float_0_1)%Qc
  /\ (float_value (S754_finite false 5404319552844596 (-94))
      - Qc_of_Z 3 / Qc_of_Z (2 ^ 40) * float_value float_0_1)%Qc = pow2 (-95).
Proof.
  split; [reflexivity |]. split; [reflexivity |]. split.
  - intros H. apply (f_equal this) in H. vm_compute in H. discriminate H.
  - apply Qc_is_canon. vm_compute. reflexivity.
Qed.

(** C4.  For a dry run reporting [B] bytes ([0 <= B < 2^64]) and a price
    [P] (zero, or a normal float of magnitude from [2^-982] up to [2^998]),
    the estimator, computing in binary64 as Python does, returns a finite
    float whose value is [B / 2^40 * P] within floating-point tolerance:
    the relative error is at most [2^-52 + 2^-106] (two roundings, the
    division and the product), and at most [2^-53] (one rounding) when [B]
    is below [2^53], where the division is exact.  A dry run reporting 0
    bytes gives the cost 0. *)
Theorem estimate_query_cost_formula (W : Type) (client : Client W)
    (query : string) (P : spec_float) (w : World W) (job : QueryJob) (wh : W)
    (B : Z) :
  client_query client query (Some dry_run_config) (warehouse w) = (inr job, wh) ->
  total_bytes_processed job = Some B ->
  0 <= B < 2 ^ 64 ->
  price_in_range P = true ->
  exists cost : spec_float,
    estimate_query_cost_binary64 client query P w =
      (Returned cost,
       {| warehouse := wh; stdin := stdin w;
          trace := trace w ++ [EvQuery query (Some dry_run_config)] |})
    /\ is_finite cost = true
    /\ (Qcabs.Qcabs (float_value cost
                     - Qc_of_Z B / Qc_of_Z (2 ^ 40) * float_value P)
        <= (pow2 (-52) + pow2 (-106))
           * Qcabs.Qcabs (Qc_of_Z B / Qc_of_Z (2 ^ 40) * float_value P))%Qc
    /\ (B < 2 ^ 53 ->
        (Qcabs.Qcabs (float_value cost
                      - Qc_of_Z B / Qc_of_Z (2 ^ 40) * float_value P)
         <= pow2 (-53)
            * Qcabs.Qcabs (Qc_of_Z B / Qc_of_Z (2 ^ 40) * float_value P))%Qc)
    /\ (B = 0 -> float_value cost = Q2Qc 0).
Proof.
  intros Hq Hb HB HP.
  destruct (cost_arithmetic B P HB HP) as (terabytes & Hdiv & Hfin & Htol & Hsmall & Hzero).
  exists (float_mul terabytes P). split; [| auto].
  unfold estimate_query_cost_binary64, bind. rewrite call_query_run, Hq.
  simpl. rewrite Hb, Hdiv. reflexivity.
Qed.

(** Counting the scenes of the reference warehouse (1759218604 bytes) at
    the price 0.1. *)
Lemma estimate_query_cost_formula_witness :
  exists cost : spec_float,
    estimate_query_cost_binary64 R.client R.scenes_query float_0_1
        (R.start R.fresh []) =
      (Returned cost,
       {| warehouse := R.fresh; stdin := [];
          trace := [EvQuery R.scenes_query (Some dry_run_config)] |})
    /\ is_finite cost = true
    /\ (Qcabs.Qcabs (float_value cost
                     - Qc_of_Z 1759218604 / Qc_of_Z (2 ^ 40) * float_value float_0_1)
        <= (pow2 (-52) + pow2 (-106))
           * Qcabs.Qcabs (Qc_of_Z 1759218604 / Qc_of_Z (2 ^ 40)
                          * float_value float_0_1))%Qc
    /\ (1759218604 < 2 ^ 53 ->
        (Qcabs.Qcabs (float_value cost
                      - Qc_of_Z 1759218604 / Qc_of_Z (2 ^ 40) * float_value float_0_1)
         <= pow2 (-53)
            * Qcabs.Qcabs (Qc_of_Z 1759218604 / Qc_of_Z (2 ^ 40)
                           * float_value float_0_1))%Qc)
    /\ (1759218604 = 0 -> float_value cost = Q2Qc 0).
Proof.
  apply (estimate_query_cost_formula _ R.client R.scenes_query float_0_1
           (R.start R.fresh [])
           {| total_bytes_processed := Some 1759218604; cache_hit := false |}
           R.fresh 1759218604).
  - vm_compute. reflexivity.
  - reflexivity.
  - lia.
  - reflexivity.
Defined.

(** The float the estimator returns there, and at the runner's price. *)
Example estimate_query_cost_binary64_scenes :
  fst (estimate_query_cost_binary64 R.client R.scenes_query float_0_1
         (R.start R.fresh [])) =
    Returned (S754_finite false 5902958102105293 (-65))
  /\ fst (estimate_query_cost_binary64 R.client R.scenes_query float_6_25
            (R.start R.fresh [])) =
       Returned (S754_finite false 5764607521587200 (-59)).
Proof. split; vm_compute; reflexivity. Qed.

(** The rational estimator of the runner returns the exact cost that the
    binary64 result approximates. *)
Corollary estimate_query_cost_binary64_near_rational (W : Type)
    (client : Client W) (query : string) (P : spec_float) (w : World W)
    (job : QueryJob) (wh : W) (B : Z) :
  client_query client query (Some dry_run_config) (warehouse w) = (inr job, wh) ->
  total_bytes_processed job = Some B ->
  0 <= B < 2 ^ 64 ->
  price_in_range P = true ->
  exists (cost : spec_float) (exact : Qc),
    fst (estimate_query_cost_binary64 client query P w) = Returned cost
    /\ fst (estimate_query_cost client query (float_value P) w) = Returned exact
    /\ snd (estimate_query_cost_binary64 client query P w) =
       snd (estimate_query_cost client query (float_value P) w)
    /\ (Qcabs.Qcabs (float_value cost - exact)
        <= (pow2 (-52) + pow2 (-106)) * Qcabs.Qcabs exact)%Qc.
Proof.
  intros Hq Hb HB HP.
  destruct (cost_arithmetic B P HB HP) as (terabytes & Hdiv & _ & Htol & _).
  exists (float_mul terabytes P), (Qc_of_Z B / Qc_of_Z (2 ^ 40) * float_value P)%Qc.
  rewrite (estimate_query_cost_bytes _ _ _ _ _ _ _ _ Hq Hb).
  unfold estimate_query_cost_binary64, bind. rewrite call_query_run, Hq.
  simpl. rewrite Hb, Hdiv. simpl. auto.
Qed.



(** ** Failures *)

(** C6.  Nothing is retried and nothing is recovered.  When the dry run
    raises [e], the estimator and the runner both end with [e] raised, after
    that single submission: the real query is never submitted.  When the
    real submission raises [e] (below the threshold, or after an affirmative
    answer), the runner ends with [e] raised, after that single real
    submission. *)
Theorem failures_propagate_unmodified (W : Type) (client : Client W)
    (query : string) (config : option QueryJobConfig) (thr : Qc) (w : World W) :
  (forall (e : exn) (wh : W),
      client_query client query (Some dry_run_config) (warehouse w) = (inl e, wh) ->
      let w1 := {| warehouse := wh; stdin := stdin w;
                   trace := trace w ++ [EvQuery query (Some dry_run_config)] |} in
      (forall P, estimate_query_cost client query P w = (Raised e, w1))
      /\ run_query client query config thr w = (Raised e, w1))
  /\ (forall (cost : Qc) (w1 : World W) (e : exn) (wh : W),
      estimate_query_cost client query run_query_cost_per_tb w = (Returned cost, w1) ->
      client_query client query config (warehouse w1) = (inl e, wh) ->
      ((cost <= thr)%Qc ->
         run_query client query config thr w =
           (Raised e,
            {| warehouse := wh; stdin := stdin w;
               trace := trace w ++ [EvQuery query (Some dry_run_config);
                                    EvQuery query config] |}))
      /\ (forall line rest,
            (thr < cost)%Qc -> stdin w = line :: rest -> lower line = "y" ->
            run_query client query config thr w =
              (Raised e,
               {| warehouse := wh; stdin := rest;
                  trace := trace w ++ [EvQuery query (Some dry_run_config);
                                       EvInput (prompt_text cost);
                                       EvQuery query config] |}))).
Proof.
  split.
  - intros e wh Hq w1.
    assert (He : forall P, estimate_query_cost client query P w = (Raised e, w1)).
    { intros P. unfold estimate_query_cost, bind. rewrite call_query_run, Hq.
      reflexivity. }
    split; [exact He |].
    apply run_query_estimate_raised, He.
  - intros cost w1 e wh He Hq.
    pose proof (estimate_query_cost_world _ _ _ _ _ _ _ He) as Hw. split.
    + intros Hc. rewrite (run_query_unprompted _ _ _ _ _ _ _ _ He Hc).
      rewrite call_query_run, Hq. simpl. rewrite Hw. simpl.
      rewrite <- app_assoc. reflexivity.
    + intros line rest Hc Hin Hy.
      rewrite (run_query_prompted _ _ _ config _ _ _ _ _ _ He Hc Hin). simpl.
      rewrite (bool_decide_eq_true_2 _ Hy), call_query_run. simpl.
      rewrite Hq. simpl. rewrite Hw. simpl. rewrite <- !app_assoc. reflexivity.
Qed.

(** A malformed query fails at the dry run; with billing disabled the real
    submission fails after the confirmation. *)
Lemma failures_propagate_unmodified_witness :
  run_query R.client "SELEC" None default_warning_threshold (R.start R.fresh ["y"]) =
    (Raised (GoogleAPIError "400 Syntax error"),
     {| warehouse := R.fresh; stdin := ["y"];
        trace := [EvQuery "SELEC" (Some dry_run_config)] |})
  /\ run_query R.client R.scenes_query None default_warning_threshold
       (R.start R.unbilled ["y"]) =
     (Raised (GoogleAPIError "403 Billing has not been enabled"),
      {| warehouse := R.unbilled; stdin := [];
         trace := [EvQuery R.scenes_query (Some dry_run_config);
                   EvInput "Estimated query cost: $0.0100. Continue? (y/N): ";
                   EvQuery R.scenes_query None] |}).
Proof.
  split.
  - apply (proj1 (failures_propagate_unmodified _ R.client "SELEC" None
                    default_warning_threshold (R.start R.fresh ["y"]))
             (GoogleAPIError "400 Syntax error") R.fresh).
    vm_compute. reflexivity.
  - apply (proj2 (proj2 (failures_propagate_unmodified _ R.client R.scenes_query
                    None default_warning_threshold (R.start R.unbilled ["y"]))
             (Qc_of_Z 1759218604 / Qc_of_Z (1024 ^ 4) * run_query_cost_per_tb)%Qc
             (mkWorld R.unbilled ["y"]
                [EvQuery R.scenes_query (Some dry_run_config)])
             (GoogleAPIError "403 Billing has not been enabled") R.unbilled
             ltac:(vm_compute; reflexivity) ltac:(vm_compute; reflexivity))
             "y" []).
    + vm_compute. reflexivity.
    + reflexivity.
    + reflexivity.
Defined.

(** ** The estimate and the result cache *)

(** The reference warehouse honours both flags of a job configuration. *)
Lemma reference_dry_run_is_pure (q : string) (c : QueryJobConfig) (wh : R.State) :
  dry_run c = Some true -> snd (R.query q (Some c) wh) = wh.
Proof.
  intros Hd. unfold R.query, R.wants_dry_run. rewrite Hd. simpl.
  destruct (R.scan_bytes wh !! q); reflexivity.
Qed.

Lemma reference_cache_disabled_reads_data (q : string) (c : QueryJobConfig)
    (wh wh' : R.State) :
  use_query_cache c = Some false ->
  R.data wh = R.data wh' ->
  fst (R.query q (Some c) wh) = fst (R.query q (Some c) wh').
Proof.
  intros Hc [= Hs Hb]. unfold R.query, R.wants_cache.
  rewrite Hc, Hs, Hb. simpl.
  destruct (R.scan_bytes wh' !! q); [| reflexivity].
  destruct (default false (dry_run c)); [reflexivity |].
  destruct (R.billing_enabled wh'); reflexivity.
Qed.

(** With the cache enabled the same dry run would be served from it. *)
Example cached_dry_run_reports_nothing :
  fst (R.query R.scenes_query
         (Some {| dry_run := Some true; use_query_cache := None |}) R.warmed) =
    inr {| total_bytes_processed := Some 0; cache_hit := true |}
  /\ fst (R.query R.scenes_query (Some dry_run_config) R.warmed) =
       inr {| total_bytes_processed := Some 1759218604; cache_hit := false |}.
Proof. split; vm_compute; reflexivity. Qed.

Section CacheContract.

Variables W D : Type.
Variable client : Client W.

(** What the warehouse holds besides its result cache. *)
Variable data : W -> D.

(** The warehouse's side of the contract: a dry run changes nothing, and a
    job with the cache disabled is answered from the data alone. *)
Hypothesis dry_run_is_pure :
  forall q c wh,
    dry_run c = Some true -> snd (client_query client q (Some c) wh) = wh.
Hypothesis cache_disabled_reads_data :
  forall q c wh wh',
    use_query_cache c = Some false ->
    data wh = data wh' ->
    fst (client_query client q (Some c) wh) = fst (client_query client q (Some c) wh').

Lemma estimate_query_cost_outcome query P (w w' : World W) :
  data (warehouse w') = data (warehouse w) ->
  fst (estimate_query_cost client query P w') =
    fst (estimate_query_cost client query P w).
Proof.
  intros Hd. unfold estimate_query_cost, bind. rewrite !call_query_run.
  rewrite (cache_disabled_reads_data query dry_run_config _ _ eq_refl Hd).
  destruct (fst (client_query client query (Some dry_run_config) (warehouse w)))
    as [e | job]; simpl; [reflexivity |].
  destruct (total_bytes_processed job); reflexivity.
Qed.

(** C5.  The estimator makes a single submission, a dry run with the
    result cache disabled.  On a warehouse honouring these flags it leaves
    the warehouse (its cache included) as it found it, its answer does not
    depend on what the cache holds, and a second call right after the first
    gives the same outcome: the same byte count, hence the same cost. *)
Theorem estimate_query_cost_cache_free query P (w : World W) :
  trace (snd (estimate_query_cost client query P w)) =
    trace w ++ [EvQuery query (Some dry_run_config)]
  /\ dry_run dry_run_config = Some true
  /\ use_query_cache dry_run_config = Some false
  /\ warehouse (snd (estimate_query_cost client query P w)) = warehouse w
  /\ (forall w' : World W,
        data (warehouse w') = data (warehouse w) ->
        fst (estimate_query_cost client query P w') =
          fst (estimate_query_cost client query P w))
  /\ fst (estimate_query_cost client query P
            (snd (estimate_query_cost client query P w))) =
       fst (estimate_query_cost client query P w).
Proof.
  destruct (estimate_query_cost client query P w) as [o w1] eqn:He.
  pose proof (estimate_query_cost_world _ _ _ _ _ _ _ He) as Hw. simpl.
  assert (Hwh : warehouse w1 = warehouse w).
  { rewrite Hw. simpl. apply dry_run_is_pure. reflexivity. }
  split; [rewrite Hw; reflexivity |]. split; [reflexivity |].
  split; [reflexivity |]. split; [exact Hwh |]. split.
  - intros w' Hd. rewrite (estimate_query_cost_outcome query P w w' Hd), He.
    reflexivity.
  - rewrite (estimate_query_cost_outcome query P w w1), He; [reflexivity |].
    rewrite Hwh. reflexivity.
Qed.

End CacheContract.

(** The reference warehouse with the scenes already cached by a real run:
    the estimate is the full price, twice. *)
Lemma estimate_query_cost_cache_free_witness :
  fst (estimate_query_cost R.client R.scenes_query run_query_cost_per_tb
         (snd (estimate_query_cost R.client R.scenes_query run_query_cost_per_tb
                 (R.start R.warmed [])))) =
    fst (estimate_query_cost R.client R.scenes_query run_query_cost_per_tb
           (R.start R.warmed []))
  /\ fst (estimate_query_cost R.client R.scenes_query run_query_cost_per_tb
            (R.start R.warmed [])) =
       fst (estimate_query_cost R.client R.scenes_query run_query_cost_per_tb
              (R.start R.fresh []))
  /\ warehouse (snd (estimate_query_cost R.client R.scenes_query
                       run_query_cost_per_tb (R.start R.warmed []))) = R.warmed.
Proof.
  pose proof (estimate_query_cost_cache_free R.State _ R.client R.data
                reference_dry_run_is_pure reference_cache_disabled_reads_data
                R.scenes_query run_query_cost_per_tb (R.start R.fresh []))
    as (_ & _ & _ & _ & Hindep & _).
  pose proof (estimate_query_cost_cache_free R.State _ R.client R.data
                reference_dry_run_is_pure reference_cache_disabled_reads_data
                R.scenes_query run_query_cost_per_tb (R.start R.warmed []))
    as (_ & _ & _ & Hframe & _ & Hidem).
  split; [exact Hidem |]. split; [| exact Hframe].
  apply Hindep. reflexivity.
Defined.

(** ** Configurations *)

(** Every run of [run_query] leaves one of five traces behind. *)
Lemma run_query_trace (W : Type) (client : Client W) (query : string)
    (config : option QueryJobConfig) (thr : Qc) (w : World W) :
  exists rest : list Event,
    trace (snd (run_query client query config thr w)) =
      trace w ++ EvQuery query (Some dry_run_config) :: rest
    /\ (rest = []
        \/ rest = [EvQuery query config]
        \/ exists prompt,
             rest = [EvInput prompt]
             \/ rest = [EvInput prompt; EvQuery query config]
             \/ rest = [EvInput prompt; EvPrint "Query cancelled."]).
Proof.
  destruct (estimate_query_cost client query run_query_cost_per_tb w)
    as [[cost | e | code] w1] eqn:He.
  - pose proof (estimate_query_cost_world _ _ _ _ _ _ _ He) as Hw.
    destruct (Qclt_le_dec thr cost) as [Hc | Hc].
    + destruct (stdin w) as [| line lines] eqn:Hin.
      * rewrite (run_query_end_of_input _ _ _ config _ _ _ _ He Hc Hin).
        exists [EvInput (prompt_text cost)]. simpl. rewrite Hw. simpl.
        rewrite <- app_assoc. split; [reflexivity |]. right. right.
        exists (prompt_text cost). left. reflexivity.
      * rewrite (run_query_prompted _ _ _ config _ _ _ _ _ _ He Hc Hin). simpl.
        destruct (bool_decide (lower line = "y")).
        -- rewrite call_query_run. simpl. rewrite Hw. simpl.
           exists [EvInput (prompt_text cost); EvQuery query config].
           rewrite <- !app_assoc. split; [reflexivity |]. right. right.
           exists (prompt_text cost). right. left. reflexivity.
        -- simpl. rewrite Hw. simpl.
           exists [EvInput (prompt_text cost); EvPrint "Query cancelled."].
           rewrite <- !app_assoc. split; [reflexivity |]. right. right.
           exists (prompt_text cost). right. right. reflexivity.
    + rewrite (run_query_unprompted _ _ _ config _ _ _ _ He Hc), call_query_run.
      simpl. rewrite Hw. simpl. exists [EvQuery query config].
      rewrite <- app_assoc. split; [reflexivity |]. right. left. reflexivity.
  - rewrite (run_query_estimate_raised _ _ _ config thr _ _ _ He).
    pose proof (estimate_query_cost_world _ _ _ _ _ _ _ He) as Hw.
    simpl. rewrite Hw. simpl. exists []. split; [reflexivity |]. left. reflexivity.
  - exfalso. revert He. unfold estimate_query_cost, bind. rewrite call_query_run.
    destruct (fst (client_query client query (Some dry_run_config) (warehouse w)))
      as [e | job]; simpl; [discriminate |].
    destruct (total_bytes_processed job); discriminate.
Qed.

(** C10.  The dry-run configuration stays with the estimate.  In every run
    of [run_query] the first submission is the dry run, and any submission
    after it carries the caller's [config] as it was given ([None] by
    default, so neither [dry_run] nor [use_query_cache] is set on it).  On
    the reference warehouse, a default-configured query whose result is
    cached is then served from the cache although its estimate was the
    price of a full scan. *)
Theorem real_submission_uses_caller_config (W : Type) (client : Client W)
    (query : string) (config : option QueryJobConfig) (thr : Qc) (w : World W) :
  (exists rest : list Event,
      trace (snd (run_query client query config thr w)) =
        trace w ++ EvQuery query (Some dry_run_config) :: rest
      /\ (forall q c, In (EvQuery q c) rest -> q = query /\ c = config)
      /\ (length (List.filter is_submission rest) <= 1)%nat)
  /\ default_config = None
  /\ run_query R.client R.scenes_query default_config default_warning_threshold
       (R.start R.warmed ["y"]) =
     (Returned {| total_bytes_processed := Some 0; cache_hit := true |},
      {| warehouse := R.warmed; stdin := [];
         trace := [EvQuery R.scenes_query (Some dry_run_config);
                   EvInput "Estimated query cost: $0.0100. Continue? (y/N): ";
                   EvQuery R.scenes_query None] |}).
Proof.
  split; [| split; [reflexivity | vm_compute; reflexivity]].
  destruct (run_query_trace W client query config thr w) as (rest & Ht & Hshape).
  exists rest. split; [exact Ht |].
  destruct Hshape as [-> | [-> | (prompt & [-> | [-> | ->]])]]; simpl.
  - split; [intros q c [] | lia].
  - split; [| lia]. intros q c [[= <- <-] | []]. auto.
  - split; [| lia]. intros q c [[=] | []].
  - split; [| lia]. intros q c [[=] | [[= <- <-] | []]]. auto.
  - split; [| lia]. intros q c [[=] | [[=] | []]].
Qed.

(** ** The export *)

Import export.

(** [copyProperties], one key at a time. *)
Lemma copyProperties_lookup (source : Image) (names : list string)
    (destination : Feature) (k : string) :
  feature_properties (copyProperties destination source names) !! k =
    if decide (k ∈ names) then
      match properties source !! k with
      | Some v => Some v
      | None => feature_properties destination !! k
      end
    else feature_properties destination !! k.
Proof.
  unfold copyProperties. cbn [feature_properties].
  generalize (feature_properties destination) as m.
  induction names as [| a names IH]; intros m; cbn [foldl].
  - rewrite decide_False; [reflexivity | apply not_elem_of_nil].
  - rewrite IH. destruct (decide (k = a)) as [-> | Hne].
    + rewrite (decide_True (P := a ∈ a :: names)); [| apply list_elem_of_here].
      destruct (properties source !! a) as [v |] eqn:Hv.
      * destruct (decide (a ∈ names)); [reflexivity | apply lookup_insert_eq].
      * destruct (decide (a ∈ names)); reflexivity.
    + assert (Hm : (match properties source !! a with
                    | Some v => <[a:=v]> m
                    | None => m
                    end) !! k = m !! k).
      { destruct (properties source !! a);
          [apply lookup_insert_ne; auto | reflexivity]. }
      rewrite Hm.
      destruct (decide (k ∈ names)) as [Hin | Hin].
      * rewrite decide_True; [reflexivity | apply list_elem_of_further, Hin].
      * rewrite decide_False; [reflexivity |].
        intros Hc. apply elem_of_cons in Hc. destruct Hc; contradiction.
Qed.

Lemma copyProperties_geometry (source : Image) (names : list string)
    (destination : Feature) :
  geometry (copyProperties destination source names) = geometry destination.
Proof. reflexivity. Qed.

Lemma keep_cols_NoDup : NoDup keep_cols.
Proof. apply (bool_decide_unpack (NoDup keep_cols)). vm_compute. exact I. Qed.

Section ExportFacts.

Variable centre : Geometry -> Qc * Qc.

Lemma Geometry_centroid_point (g : Geometry) :
  exists lon lat, Geometry_centroid centre g = Point lon lat.
Proof. unfold Geometry_centroid. destruct (centre g) as [lon lat]. eauto. Qed.

Lemma centroid_lookup (img : Image) (k : string) :
  feature_properties (centroid centre img) !! k =
    if decide (k ∈ keep_cols) then properties img !! k else None.
Proof.
  unfold centroid. rewrite copyProperties_lookup. cbn [Feature_of_geometry feature_properties].
  rewrite lookup_empty. destruct (decide (k ∈ keep_cols)); [| reflexivity].
  destruct (properties img !! k); reflexivity.
Qed.

(** [col.map(centroid)] keeps one row per image, in order. *)
Lemma images_to_points_lookup (col : list Image) (i : nat) :
  images_to_points centre col !! i = centroid centre <$> col !! i.
Proof.
  unfold images_to_points. revert i.
  induction col as [| img col IH]; intros [| i]; simpl; auto.
Qed.

End ExportFacts.

(** The export source is the union of the eighteen named collections. *)
Lemma collect_landsat_missions_elem (catalog : string -> list Image) (img : Image) :
  img ∈ collect_landsat_missions catalog <->
  exists platform tier,
    platform ∈ platforms /\ tier ∈ tiers
    /\ img ∈ catalog ("LANDSAT/" +:+ platform +:+ "/C02/" +:+ tier).
Proof.
  unfold collect_landsat_missions, platforms, tiers. cbn [foldl].
  rewrite !elem_of_app. split.
  - intros H.
    repeat (destruct H as [H | H];
            [| eexists _, _; split; [| split; [| exact H]];
               repeat first [apply list_elem_of_here | apply list_elem_of_further]]).
    apply elem_of_nil in H. destruct H.
  - intros (platform & tier & Hp & Ht & Hi).
    repeat (apply elem_of_cons in Hp; destruct Hp as [-> | Hp]);
      try (apply elem_of_nil in Hp; destruct Hp);
      repeat (apply elem_of_cons in Ht; destruct Ht as [-> | Ht]);
      try (apply elem_of_nil in Ht; destruct Ht);
      tauto.
Qed.

Lemma planar_centroid_is_point (g : Geometry) : is_point (planar_centroid g) = true.
Proof.
  destruct g as [lon lat | ring | rings]; simpl; [reflexivity | |].
  - destruct (edges_centroid (edges ring)). reflexivity.
  - destruct (edges_centroid (flat_map edges rings)). reflexivity.
Qed.

Lemma planar_centroid_is_centre (g : Geometry) :
  centre_of_footprint g (planar_centroid g).
Proof.
  destruct g as [lon lat | ring | rings]; simpl; [reflexivity | | exact I].
  destruct ring as [| [x1 y1] [| [x2 y2] [| [x3 y3] [| [x4 y4] [| p5 ring]]]]]; try exact I.
  cbn [fst snd]. intros Hx Hy Harea.
  assert (Hx4 : x4 = (x1 + x3 - x2)%Qc) by (rewrite Hx; ring).
  assert (Hy4 : y4 = (y1 + y3 - y2)%Qc) by (rewrite Hy; ring).
  subst x4 y4. clear Hx Hy.
  unfold edges_centroid, area2, edges, Qc_sum, cross in *.
  cbn [app combine map foldr fst snd] in *.
  replace (Q2Qc 3) with (1 + 1 + 1)%Qc in * by (apply Qc_is_canon; reflexivity).
  replace (Q2Qc 2) with (1 + 1)%Qc in * by (apply Qc_is_canon; reflexivity).
  f_equal; field;
    (split; [discriminate |]; split; [| discriminate];
     intros H; apply Harea; etransitivity; [| exact H]; ring).
Qed.

(** C7.  The row exported for an image has as geometry what the catalog
    service's [centroid()] answers for the footprint of that image.  The
    service answers with a point, which is a centre of the geometry it is
    given; so the row's geometry is a single point, a centre of the image's
    footprint, and never a polygon.  The export yields one row per image,
    in the order of the collection. *)
Theorem exported_geometry_is_centroid (ee_centroid : Geometry -> Geometry)
    (is_centre : Geometry -> Geometry -> Prop)
    (col : list Image) (i : nat) (img : Image) :
  (forall g, is_point (ee_centroid g) = true) ->
  (forall g, is_centre g (ee_centroid g)) ->
  col !! i = Some img ->
  exists row : Feature,
    images_to_points (fun g => coordinates (ee_centroid g)) col !! i = Some row
    /\ geometry row = ee_centroid (Image_geometry img)
    /\ is_centre (footprint img) (geometry row)
    /\ (exists lon lat, geometry row = Point lon lat)
    /\ (forall ring, geometry row <> Polygon ring)
    /\ (forall rings, geometry row <> MultiPolygon rings)
    /\ length (images_to_points (fun g => coordinates (ee_centroid g)) col)
         = length col.
Proof.
  intros Hpoint Hcentre Hi.
  exists (centroid (fun g => coordinates (ee_centroid g)) img).
  rewrite images_to_points_lookup, Hi. split; [reflexivity |].
  assert (Hg : geometry (centroid (fun g => coordinates (ee_centroid g)) img) =
               ee_centroid (Image_geometry img)).
  { unfold centroid. rewrite copyProperties_geometry.
    cbn [Feature_of_geometry geometry]. unfold Geometry_centroid.
    specialize (Hpoint (Image_geometry img)).
    destruct (ee_centroid (Image_geometry img)) as [lon lat | ring | rings];
      [reflexivity | discriminate Hpoint | discriminate Hpoint]. }
  rewrite Hg. split; [reflexivity |]. split; [apply Hcentre |].
  specialize (Hpoint (Image_geometry img)).
  destruct (ee_centroid (Image_geometry img)) as [lon lat | ring | rings];
    [| discriminate Hpoint | discriminate Hpoint].
  split; [eauto |]. split; [discriminate |]. split; [discriminate |].
  unfold images_to_points. apply length_map.
Qed.

(** The sample scene with the planar centroid: its footprint is a box with
    area, and its row sits where the diagonals cross, at (-123, 37). *)
Lemma exported_geometry_is_centroid_witness :
  exists row : Feature,
    images_to_points (fun g => coordinates (planar_centroid g)) [sample_image]
      !! 0%nat = Some row
    /\ geometry row = Point (Q2Qc (-123)) (Q2Qc 37).
Proof.
  destruct (exported_geometry_is_centroid planar_centroid centre_of_footprint
              [sample_image] 0 sample_image planar_centroid_is_point
              planar_centroid_is_centre eq_refl)
    as (row & Hrow & _ & Hcentre & _).
  exists row. split; [exact Hrow |].
  rewrite Hcentre.
  - f_equal; apply Qc_is_canon; reflexivity.
  - reflexivity.
  - reflexivity.
  - vm_compute. discriminate.
Defined.

(** C8.  The row exported for an image carries the eight kept columns and
    nothing else: a key of the row is one of the eight, its value is the
    value the catalog entry has for it, and when the entry has all eight
    the row has exactly these eight; its geometry is the point. *)
Theorem exported_properties_are_kept_columns (centre : Geometry -> Qc * Qc)
    (col : list Image) (i : nat) (img : Image) :
  col !! i = Some img ->
  exists row : Feature,
    images_to_points centre col !! i = Some row
    /\ keep_cols = ["SPACECRAFT_ID"; "DATE_ACQUIRED"; "WRS_PATH"; "WRS_ROW";
                    "COLLECTION_CATEGORY"; "CLOUD_COVER_LAND"; "CLOUD_COVER";
                    "SUN_ELEVATION"]
    /\ (forall k, feature_properties row !! k =
                  if decide (k ∈ keep_cols) then properties img !! k else None)
    /\ dom (feature_properties row) ⊆ (list_to_set keep_cols : gset string)
    /\ ((forall k, k ∈ keep_cols -> is_Some (properties img !! k)) ->
        dom (feature_properties row) = (list_to_set keep_cols : gset string)
        /\ size (feature_properties row) = 8%nat)
    /\ is_point (geometry row) = true.
Proof.
  intros Hi. exists (centroid centre img).
  rewrite images_to_points_lookup, Hi. split; [reflexivity |].
  split; [reflexivity |]. split; [apply centroid_lookup |].
  split; [| split].
  - intros k Hk. apply elem_of_dom in Hk. rewrite centroid_lookup in Hk.
    apply elem_of_list_to_set.
    destruct (decide (k ∈ keep_cols)) as [Hin | Hin]; [exact Hin |].
    destruct Hk as [v Hv]. discriminate Hv.
  - intros Hall.
    assert (Hdom : dom (feature_properties (centroid centre img)) =
                   (list_to_set keep_cols : gset string)).
    { apply set_eq. intros k. rewrite elem_of_dom, centroid_lookup, elem_of_list_to_set.
      destruct (decide (k ∈ keep_cols)) as [Hin | Hin].
      - split; [intros _; exact Hin | intros _; apply Hall, Hin].
      - split; [intros [v Hv]; discriminate Hv | intros Hc; contradiction]. }
    split; [exact Hdom |].
    rewrite <- (size_dom (D := gset string)), Hdom.
    rewrite (size_list_to_set _ keep_cols_NoDup). reflexivity.
  - unfold centroid. rewrite copyProperties_geometry. cbn [Feature_of_geometry geometry].
    destruct (Geometry_centroid_point centre (Image_geometry img)) as (lon & lat & ->).
    reflexivity.
Qed.

(** The sample scene: the eight columns go through, the ocean sentinel -1
    included; the product identifier does not. *)
Lemma exported_properties_are_kept_columns_witness :
  exists row : Feature,
    images_to_points box_centre [sample_image] !! 0%nat = Some row
    /\ feature_properties row !! "CLOUD_COVER_LAND" = Some (VInt (-1))
    /\ feature_properties row !! "SPACECRAFT_ID" = Some (VString "LANDSAT_8")
    /\ feature_properties row !! "LANDSAT_PRODUCT_ID" = None
    /\ size (feature_properties row) = 8%nat
    /\ is_point (geometry row) = true.
Proof.
  destruct (exported_properties_are_kept_columns box_centre [sample_image] 0
              sample_image eq_refl)
    as (row & Hrow & _ & Hlook & _ & Hall & Hpt).
  exists row. split; [exact Hrow |].
  rewrite !Hlook. split; [reflexivity |]. split; [reflexivity |].
  split; [reflexivity |]. split; [| exact Hpt].
  apply Hall. intros k Hk. unfold keep_cols in Hk.
  repeat (apply elem_of_cons in Hk; destruct Hk as [-> | Hk]);
    try (apply elem_of_nil in Hk; destruct Hk);
    eexists; reflexivity.
Defined.

(** ** The scenarios of the specification, run on the reference warehouse *)

(** Scenario 1: the dry run reports 0 bytes; the cost is 0, nothing is
    asked, the query runs. *)
Example scenario_zero_bytes :
  fst (estimate_query_cost R.client R.constant_query run_query_cost_per_tb
         (R.start R.fresh [])) = Returned (Q2Qc 0)
  /\ trace (snd (run_query R.client R.constant_query default_config
                   default_warning_threshold (R.start R.fresh []))) =
       [EvQuery R.constant_query (Some dry_run_config);
        EvQuery R.constant_query None].
Proof.
  split; [| vm_compute; reflexivity].
  unfold estimate_query_cost, bind. rewrite call_query_run.
  vm_compute. f_equal. apply Qc_is_canon. reflexivity.
Qed.

(** Scenarios 2 and 4: one cent against the default threshold; [y] and [Y]
    are treated alike. *)
Example scenario_confirmed :
  run_query R.client R.scenes_query default_config default_warning_threshold
      (R.start R.fresh ["y"]) =
    run_query R.client R.scenes_query default_config default_warning_threshold
      (R.start R.fresh ["Y"])
  /\ trace (snd (run_query R.client R.scenes_query default_config
                   default_warning_threshold (R.start R.fresh ["y"]))) =
       [EvQuery R.scenes_query (Some dry_run_config);
        EvInput "Estimated query cost: $0.0100. Continue? (y/N): ";
        EvQuery R.scenes_query None].
Proof. split; vm_compute; reflexivity. Qed.

(** Scenarios 3 and 5: [n] and the empty line both cancel. *)
Example scenario_declined :
  run_query R.client R.scenes_query default_config default_warning_threshold
      (R.start R.fresh ["n"]) =
    (Exited 0,
     {| warehouse := R.fresh; stdin := [];
        trace := [EvQuery R.scenes_query (Some dry_run_config);
                  EvInput "Estimated query cost: $0.0100. Continue? (y/N): ";
                  EvPrint "Query cancelled."] |})
  /\ run_query R.client R.scenes_query default_config default_warning_threshold
       (R.start R.fresh [""]) =
     run_query R.client R.scenes_query default_config default_warning_threshold
       (R.start R.fresh ["n"]).
Proof. split; vm_compute; reflexivity. Qed.

(** Words that merely start with the token, or pad it, are not the token. *)
Example near_misses_decline :
  Forall (fun line => lower line <> "y") ["yes"; " y"; "y "; "n"; ""; "yY"].
Proof. repeat constructor; discriminate. Qed.

(** * Further properties of the runner *)

(** Every run, in full: what comes back and the world it leaves. *)
Lemma run_query_world (W : Type) (client : Client W) (query : string)
    (config : option QueryJobConfig) (thr : Qc) (w : World W) :
  let w1 := {| warehouse :=
                 snd (client_query client query (Some dry_run_config) (warehouse w));
               stdin := stdin w;
               trace := trace w ++ [EvQuery query (Some dry_run_config)] |} in
  (exists e, run_query client query config thr w = (Raised e, w1)
             /\ (fst (client_query client query (Some dry_run_config) (warehouse w))
                   = inl e
                 \/ exists message, e = TypeError message))
  \/ (exists cost,
        fst (estimate_query_cost client query run_query_cost_per_tb w) = Returned cost
        /\ ((cost <= thr)%Qc
            /\ run_query client query config thr w = call_query client query config w1
            \/ (thr < cost)%Qc /\ stdin w = []
               /\ run_query client query config thr w =
                    (Raised EOFError, log (EvInput (prompt_text cost)) w1)
            \/ exists line rest,
                 (thr < cost)%Qc /\ stdin w = line :: rest
                 /\ (lower line = "y"
                     /\ run_query client query config thr w =
                          call_query client query config
                            {| warehouse := warehouse w1; stdin := rest;
                               trace := trace w1 ++ [EvInput (prompt_text cost)] |}
                     \/ lower line <> "y"
                        /\ run_query client query config thr w =
                             (Exited 0,
                              {| warehouse := warehouse w1; stdin := rest;
                                 trace := trace w1 ++ [EvInput (prompt_text cost);
                                                       EvPrint "Query cancelled."] |})))).
Proof.
  intros w1.
  destruct (estimate_query_cost client query run_query_cost_per_tb w)
    as [[cost | e | code] w1'] eqn:He;
    pose proof (estimate_query_cost_world _ _ _ _ _ _ _ He) as Hw;
    fold w1 in Hw; subst w1'.
  - right. exists cost. split; [reflexivity |].
    destruct (Qclt_le_dec thr cost) as [Hc | Hc].
    + right. destruct (stdin w) as [| line rest] eqn:Hin.
      * left. split; [exact Hc |]. split; [reflexivity |].
        apply (run_query_end_of_input _ _ _ config _ _ _ _ He Hc Hin).
      * right. exists line, rest. split; [exact Hc |]. split; [reflexivity |].
        rewrite (run_query_prompted _ _ _ config _ _ _ _ _ _ He Hc Hin). cbv zeta.
        destruct (decide (lower line = "y")) as [Hy | Hy].
        -- left. split; [exact Hy |]. rewrite (bool_decide_eq_true_2 _ Hy). reflexivity.
        -- right. split; [exact Hy |]. rewrite (bool_decide_eq_false_2 _ Hy).
           unfold log. simpl. rewrite <- app_assoc. reflexivity.
    + left. split; [exact Hc |].
      apply (run_query_unprompted _ _ _ config _ _ _ _ He Hc).
  - left. exists e.
    split; [apply (run_query_estimate_raised _ _ _ config thr _ _ _ He) |].
    revert He. unfold estimate_query_cost, bind. rewrite call_query_run.
    destruct (fst (client_query client query (Some dry_run_config) (warehouse w)))
      as [e' | job]; simpl.
    + intros H. injection H. intros. subst e. left. reflexivity.
    + destruct (total_bytes_processed job); unfold ret, raise; [discriminate |].
      intros H. injection H. intros. subst e. right. eauto.
  - exfalso. revert He. unfold estimate_query_cost, bind. rewrite call_query_run.
    destruct (fst (client_query client query (Some dry_run_config) (warehouse w)))
      as [e | job]; simpl; [discriminate |].
    destruct (total_bytes_processed job); discriminate.
Qed.

(** X1.  Above the threshold with standard input at its end, [input]
    raises [EOFError] and [run_query] lets it through: the prompt was shown,
    nothing was cancelled or submitted, and the warehouse is as the dry run
    left it. *)
Theorem run_query_prompt_at_end_of_input (W : Type) (client : Client W)
    (query : string) (config : option QueryJobConfig) (thr : Qc)
    (w w1 : World W) (cost : Qc) :
  estimate_query_cost client query run_query_cost_per_tb w = (Returned cost, w1) ->
  (thr < cost)%Qc ->
  stdin w = [] ->
  run_query client query config thr w =
    (Raised EOFError,
     {| warehouse :=
          snd (client_query client query (Some dry_run_config) (warehouse w));
        stdin := [];
        trace := trace w ++ [EvQuery query (Some dry_run_config);
                             EvInput (prompt_text cost)] |}).
Proof.
  intros He Hc Hin.
  rewrite (run_query_end_of_input _ _ _ config _ _ _ _ He Hc Hin).
  rewrite (estimate_query_cost_world _ _ _ _ _ _ _ He). unfold log. simpl.
  rewrite Hin, <- app_assoc. reflexivity.
Qed.

Lemma run_query_prompt_at_end_of_input_witness :
  run_query R.client R.scenes_query None default_warning_threshold
      (R.start R.fresh []) =
    (Raised EOFError,
     {| warehouse := R.fresh; stdin := [];
        trace := [EvQuery R.scenes_query (Some dry_run_config);
                  EvInput "Estimated query cost: $0.0100. Continue? (y/N): "] |}).
Proof.
  apply (run_query_prompt_at_end_of_input _ R.client R.scenes_query None
           default_warning_threshold (R.start R.fresh [])
           (mkWorld R.fresh [] [EvQuery R.scenes_query (Some dry_run_config)])
           (Qc_of_Z 1759218604 / Qc_of_Z (1024 ^ 4) * run_query_cost_per_tb)%Qc).
  - vm_compute. reflexivity.
  - vm_compute. reflexivity.
  - reflexivity.
Defined.

(** X2.  A dry-run handle without a byte count ([total_bytes_processed] is
    [None]) makes the division raise [TypeError]; the estimator and the
    runner both end with it, with no prompt and no real submission. *)
Theorem estimate_without_byte_count (W : Type) (client : Client W)
    (query : string) (config : option QueryJobConfig) (thr : Qc)
    (w : World W) (job : QueryJob) (wh : W) :
  client_query client query (Some dry_run_config) (warehouse w) = (inr job, wh) ->
  total_bytes_processed job = None ->
  exists message : string,
    (forall P, estimate_query_cost client query P w =
                 (Raised (TypeError message),
                  {| warehouse := wh; stdin := stdin w;
                     trace := trace w ++ [EvQuery query (Some dry_run_config)] |}))
    /\ run_query client query config thr w =
         (Raised (TypeError message),
          {| warehouse := wh; stdin := stdin w;
             trace := trace w ++ [EvQuery query (Some dry_run_config)] |}).
Proof.
  intros Hq Hb.
  exists "unsupported operand type(s) for /: 'NoneType' and 'int'".
  assert (He : forall P, estimate_query_cost client query P w =
                 (Raised (TypeError "unsupported operand type(s) for /: 'NoneType' and 'int'"),
                  {| warehouse := wh; stdin := stdin w;
                     trace := trace w ++ [EvQuery query (Some dry_run_config)] |})).
  { intros P. unfold estimate_query_cost, bind. rewrite call_query_run, Hq.
    simpl. rewrite Hb. reflexivity. }
  split; [exact He |].
  apply run_query_estimate_raised, He.
Qed.

Lemma estimate_without_byte_count_witness :
  exists message : string,
    (forall P, estimate_query_cost silent_client "SELECT 1" P (mkWorld tt ["y"] []) =
                 (Raised (TypeError message),
                  {| warehouse := tt; stdin := ["y"];
                     trace := [] ++ [EvQuery "SELECT 1" (Some dry_run_config)] |}))
    /\ run_query silent_client "SELECT 1" None default_warning_threshold
         (mkWorld tt ["y"] []) =
         (Raised (TypeError message),
          {| warehouse := tt; stdin := ["y"];
             trace := [] ++ [EvQuery "SELECT 1" (Some dry_run_config)] |}).
Proof.
  apply (estimate_without_byte_count unit silent_client "SELECT 1" None
           default_warning_threshold (mkWorld tt ["y"] [])
           {| total_bytes_processed := None; cache_hit := false |} tt).
  - reflexivity.
  - reflexivity.
Defined.

(** X3.  [run_query] reads at most one line of standard input, and only
    after showing the prompt: either the remaining lines are those it
    found, and no prompt was shown, or exactly the first line is gone and
    exactly one prompt was shown. *)
Theorem run_query_reads_at_most_one_line (W : Type) (client : Client W)
    (query : string) (config : option QueryJobConfig) (thr : Qc) (w : World W) :
  exists shown : list Event,
    trace (snd (run_query client query config thr w)) = trace w ++ shown
    /\ (stdin (snd (run_query client query config thr w)) = stdin w
        /\ (stdin w <> [] -> forall prompt, ~ In (EvInput prompt) shown)
        \/ exists line prompt,
             stdin w = line :: stdin (snd (run_query client query config thr w))
             /\ List.filter (fun ev => match ev with EvInput _ => true | _ => false end)
                            shown = [EvInput prompt]).
Proof.
  destruct (run_query_world W client query config thr w)
    as [(e & Hr & _) | (cost & _ & [(Hc & Hr) | [(Hc & Hin & Hr) | (line & rest & Hc & Hin & [(Hy & Hr) | (Hy & Hr)])]])];
    rewrite Hr; try rewrite call_query_run; simpl.
  - eexists. split; [reflexivity |]. left. split; [reflexivity |].
    intros _ prompt [[=] | []].
  - eexists. split; [rewrite <- app_assoc; reflexivity |]. left.
    split; [reflexivity |]. intros _ prompt [[=] | [[=] | []]].
  - eexists. split; [rewrite <- app_assoc; reflexivity |]. left.
    split; [reflexivity |]. intros Hne. contradiction.
  - eexists. split; [rewrite <- !app_assoc; reflexivity |]. right.
    exists line, (prompt_text cost). split; [exact Hin | reflexivity].
  - eexists. split; [rewrite <- !app_assoc; reflexivity |]. right.
    exists line, (prompt_text cost). split; [exact Hin | reflexivity].
Qed.

(** X4.  What [run_query] never does.  It leaves the process only with
    status 0, and only right after printing the cancellation; it returns a
    handle only as its last act, the real submission, and the handle is the
    one that submission gave. *)
Theorem run_query_outcomes (W : Type) (client : Client W)
    (query : string) (config : option QueryJobConfig) (thr : Qc) (w : World W) :
  (forall code w',
      run_query client query config thr w = (Exited code, w') ->
      code = 0 /\ last (trace w') = Some (EvPrint "Query cancelled."))
  /\ (forall job w',
        run_query client query config thr w = (Returned job, w') ->
        last (trace w') = Some (EvQuery query config)
        /\ client_query client query config
             (warehouse (snd (estimate_query_cost client query
                                run_query_cost_per_tb w))) =
           (inr job, warehouse w')).
Proof.
  assert (Hcall : forall (w0 : World W) job w',
            call_query client query config w0 = (Returned job, w') ->
            last (trace w') = Some (EvQuery query config)
            /\ client_query client query config (warehouse w0) =
                 (inr job, warehouse w')).
  { intros w0 job w'. rewrite call_query_run.
    destruct (client_query client query config (warehouse w0)) as [[e | job0] wh];
      simpl; [discriminate |].
    intros [= <- <-]. simpl. rewrite last_snoc. auto. }
  assert (Hwh : warehouse (snd (estimate_query_cost client query
                                  run_query_cost_per_tb w)) =
                snd (client_query client query (Some dry_run_config) (warehouse w))).
  { destruct (estimate_query_cost client query run_query_cost_per_tb w)
      as [o w1] eqn:He.
    rewrite (estimate_query_cost_world _ _ _ _ _ _ _ He). reflexivity. }
  rewrite Hwh.
  destruct (run_query_world W client query config thr w)
    as [(e & Hr & _) | (cost & _ & [(Hc & Hr) | [(Hc & Hin & Hr) | (line & rest & Hc & Hin & [(Hy & Hr) | (Hy & Hr)])]])];
    rewrite Hr; split; intros x w'; try discriminate.
  - rewrite call_query_run.
    destruct (client_query client query config _) as [[e | job0] wh]; discriminate.
  - intros H. apply (Hcall _ _ _ H).
  - rewrite call_query_run.
    destruct (client_query client query config _) as [[e | job0] wh]; discriminate.
  - intros H. apply (Hcall _ _ _ H).
  - intros [= <- <-]. simpl. split; [reflexivity |].
    change [EvInput (prompt_text cost); EvPrint "Query cancelled."]
      with ([EvInput (prompt_text cost)] ++ [EvPrint "Query cancelled."]).
    rewrite !app_assoc, last_snoc. reflexivity.
Qed.

(** The price of one byte at 6.25 per 2^40 bytes. *)
Lemma run_query_byte_price (B : Z) :
  (Qc_of_Z B / Qc_of_Z (1024 ^ 4) * run_query_cost_per_tb)%Qc =
    (Qc_of_Z B * Q2Qc (25 # 4398046511104))%Qc.
Proof.
  unfold Qcdiv. rewrite <- Qcmult_assoc.
  replace (/ Qc_of_Z (1024 ^ 4) * run_query_cost_per_tb)%Qc
    with (Q2Qc (25 # 4398046511104)); [reflexivity |].
  apply Qc_is_canon. reflexivity.
Qed.

(** X5.  With the default threshold the prompt depends on the byte count
    alone: a dry run reporting at most 175921860 bytes goes straight to the
    real submission, one reporting 175921861 bytes or more is prompted. *)
Theorem default_threshold_in_bytes (W : Type) (client : Client W)
    (query : string) (config : option QueryJobConfig) (w : World W)
    (job : QueryJob) (wh : W) (B : Z) :
  client_query client query (Some dry_run_config) (warehouse w) = (inr job, wh) ->
  total_bytes_processed job = Some B ->
  (B <= 175921860 ->
     trace (snd (run_query client query config default_warning_threshold w)) =
       trace w ++ [EvQuery query (Some dry_run_config); EvQuery query config])
  /\ (175921861 <= B ->
      exists cost rest,
        fst (estimate_query_cost client query run_query_cost_per_tb w) = Returned cost
        /\ trace (snd (run_query client query config default_warning_threshold w)) =
             trace w ++ [EvQuery query (Some dry_run_config);
                         EvInput (prompt_text cost)] ++ rest).
Proof.
  intros Hq Hb.
  pose proof (estimate_query_cost_bytes _ client query run_query_cost_per_tb
                _ _ _ _ Hq Hb) as He.
  assert (Hk : (Q2Qc 0 < Q2Qc (25 # 4398046511104))%Qc) by reflexivity.
  split; intros HB.
  - assert (Hc : (Qc_of_Z B / Qc_of_Z (1024 ^ 4) * run_query_cost_per_tb
                  <= default_warning_threshold)%Qc).
    { rewrite run_query_byte_price.
      apply Qcle_trans with (Qc_of_Z 175921860 * Q2Qc (25 # 4398046511104))%Qc.
      - apply (proj1 (Qcmult_le_mono_pos_r _ _ _ Hk)). apply (proj1 (Z2Qc_inj_le _ _)). exact HB.
      - vm_compute. discriminate. }
    rewrite (run_query_unprompted _ _ _ config _ _ _ _ He Hc), call_query_run.
    simpl. rewrite <- app_assoc. reflexivity.
  - assert (Hc : (default_warning_threshold
                  < Qc_of_Z B / Qc_of_Z (1024 ^ 4) * run_query_cost_per_tb)%Qc).
    { rewrite run_query_byte_price.
      apply Qclt_le_trans with (Qc_of_Z 175921861 * Q2Qc (25 # 4398046511104))%Qc.
      - vm_compute. reflexivity.
      - apply (proj1 (Qcmult_le_mono_pos_r _ _ _ Hk)). apply (proj1 (Z2Qc_inj_le _ _)). exact HB. }
    eexists. rewrite He. simpl.
    destruct (stdin w) as [| line rest] eqn:Hin.
    + exists []. split; [reflexivity |].
      rewrite (run_query_end_of_input _ _ _ config _ _ _ _ He Hc Hin).
      simpl. rewrite <- app_assoc. reflexivity.
    + rewrite (run_query_prompted _ _ _ config _ _ _ _ _ _ He Hc Hin). simpl.
      destruct (bool_decide (lower line = "y")).
      * rewrite call_query_run. simpl. exists [EvQuery query config].
        split; [reflexivity |]. rewrite <- !app_assoc. reflexivity.
      * simpl. exists [EvPrint "Query cancelled."].
        split; [reflexivity |]. rewrite <- !app_assoc. reflexivity.
Qed.

Lemma default_threshold_in_bytes_witness :
  (1759218604 <= 175921860 ->
     trace (snd (run_query R.client R.scenes_query None default_warning_threshold
                   (R.start R.fresh ["n"]))) =
       [] ++ [EvQuery R.scenes_query (Some dry_run_config);
              EvQuery R.scenes_query None])
  /\ (175921861 <= 1759218604 ->
      exists cost rest,
        fst (estimate_query_cost R.client R.scenes_query run_query_cost_per_tb
               (R.start R.fresh ["n"])) = Returned cost
        /\ trace (snd (run_query R.client R.scenes_query None
                         default_warning_threshold (R.start R.fresh ["n"]))) =
             [] ++ [EvQuery R.scenes_query (Some dry_run_config);
                    EvInput (prompt_text cost)] ++ rest).
Proof.
  apply (default_threshold_in_bytes _ R.client R.scenes_query None
           (R.start R.fresh ["n"])
           {| total_bytes_processed := Some 1759218604; cache_hit := false |}
           R.fresh 1759218604).
  - vm_compute. reflexivity.
  - reflexivity.
Defined.

(** X6.  At a price that is not negative the estimate grows with the byte
    count and is not negative for a byte count that is not: a query that
    scans more never costs less, so a threshold it stays under also clears
    every smaller query. *)
Theorem estimate_query_cost_monotone (W : Type) (client : Client W)
    (query query' : string) (P : Qc) (w w' : World W)
    (job job' : QueryJob) (wh wh' : W) (B B' : Z) :
  client_query client query (Some dry_run_config) (warehouse w) = (inr job, wh) ->
  total_bytes_processed job = Some B ->
  client_query client query' (Some dry_run_config) (warehouse w') = (inr job', wh') ->
  total_bytes_processed job' = Some B' ->
  (Q2Qc 0 <= P)%Qc ->
  B <= B' ->
  exists c c' : Qc,
    fst (estimate_query_cost client query P w) = Returned c
    /\ fst (estimate_query_cost client query' P w') = Returned c'
    /\ (c <= c')%Qc
    /\ (0 <= B -> (Q2Qc 0 <= c)%Qc)
    /\ (forall thr, (c' <= thr)%Qc -> (c <= thr)%Qc).
Proof.
  intros Hq Hb Hq' Hb' HP HB.
  rewrite (estimate_query_cost_bytes _ client query P _ _ _ _ Hq Hb).
  rewrite (estimate_query_cost_bytes _ client query' P _ _ _ _ Hq' Hb').
  eexists _, _. split; [reflexivity |]. split; [reflexivity |].
  assert (Hinv : (Q2Qc 0 < / Qc_of_Z (1024 ^ 4))%Qc).
  { apply Qcinv_pos. reflexivity. }
  assert (Hle : forall x y : Z, x <= y ->
            (Qc_of_Z x / Qc_of_Z (1024 ^ 4) * P <= Qc_of_Z y / Qc_of_Z (1024 ^ 4) * P)%Qc).
  { intros x y Hxy. apply Qcmult_le_compat_r; [| exact HP].
    unfold Qcdiv. apply (proj1 (Qcmult_le_mono_pos_r _ _ _ Hinv)).
    apply (proj1 (Z2Qc_inj_le _ _)). exact Hxy. }
  split; [apply Hle, HB |]. split.
  - intros H0. pose proof (Hle 0 B H0) as H.
    rewrite Z2Qc_inj_0 in H. unfold Qcdiv in H. rewrite !Qcmult_0_l in H. exact H.
  - intros thr Hthr. eapply Qcle_trans; [apply Hle, HB | exact Hthr].
Qed.

Lemma estimate_query_cost_monotone_witness :
  exists c c' : Qc,
    fst (estimate_query_cost R.client R.constant_query default_cost_per_tb
           (R.start R.fresh [])) = Returned c
    /\ fst (estimate_query_cost R.client R.scenes_query default_cost_per_tb
              (R.start R.warmed [])) = Returned c'
    /\ (c <= c')%Qc
    /\ (0 <= 0 -> (Q2Qc 0 <= c)%Qc)
    /\ (forall thr, (c' <= thr)%Qc -> (c <= thr)%Qc).
Proof.
  apply (estimate_query_cost_monotone _ R.client R.constant_query R.scenes_query
           default_cost_per_tb (R.start R.fresh []) (R.start R.warmed [])
           {| total_bytes_processed := Some 0; cache_hit := false |}
           {| total_bytes_processed := Some 1759218604; cache_hit := false |}
           R.fresh R.warmed 0 1759218604).
  - vm_compute. reflexivity.
  - reflexivity.
  - vm_compute. reflexivity.
  - reflexivity.
  - vm_compute. discriminate.
  - lia.
Defined.

(** The reference warehouse never changes its data on a submission. *)
Lemma reference_submissions_keep_data (q : string)
    (job_config : option QueryJobConfig) (wh : R.State) :
  R.data (snd (R.query q job_config wh)) = R.data wh.
Proof.
  unfold R.query, R.data.
  destruct (R.scan_bytes wh !! q); [| reflexivity].
  destruct (R.wants_dry_run job_config); [reflexivity |].
  destruct (R.billing_enabled wh) eqn:Hb; simpl; rewrite ?Hb; reflexivity.
Qed.

Section RunThenEstimate.

Variables W D : Type.
Variable client : Client W.
Variable data : W -> D.

(** The warehouse's side: a job with the cache disabled is answered from
    the data alone, and queries only read the data. *)
Hypothesis cache_disabled_reads_data :
  forall q c wh wh',
    use_query_cache c = Some false ->
    data wh = data wh' ->
    fst (client_query client q (Some c) wh) = fst (client_query client q (Some c) wh').
Hypothesis submissions_keep_data :
  forall q job_config wh, data (snd (client_query client q job_config wh)) = data wh.

(** X7.  On such a warehouse, having run a query through [run_query]
    (whatever came of it: cancelled, failed, or executed and cached) does
    not change what the estimator then answers for any query: a second run
    meets the same estimate as the first. *)
Theorem estimate_after_run_query (query : string)
    (config : option QueryJobConfig) (thr : Qc) (w : World W)
    (query' : string) (P : Qc) :
  fst (estimate_query_cost client query' P
         (snd (run_query client query config thr w))) =
    fst (estimate_query_cost client query' P w).
Proof.
  apply (estimate_query_cost_outcome W D client data cache_disabled_reads_data).
  destruct (run_query_world W client query config thr w)
    as [(e & Hr & _) | (cost & _ & [(Hc & Hr) | [(Hc & Hin & Hr) | (line & rest & Hc & Hin & [(Hy & Hr) | (Hy & Hr)])]])];
    rewrite Hr; try rewrite call_query_run; simpl;
    rewrite ?submissions_keep_data; reflexivity.
Qed.

End RunThenEstimate.

(** The scenes query, run and confirmed on the reference warehouse, then
    estimated again: one cent both times, although the result is cached. *)
Lemma estimate_after_run_query_witness :
  fst (estimate_query_cost R.client R.scenes_query run_query_cost_per_tb
         (snd (run_query R.client R.scenes_query None default_warning_threshold
                 (R.start R.fresh ["y"])))) =
    fst (estimate_query_cost R.client R.scenes_query run_query_cost_per_tb
           (R.start R.fresh ["y"]))
  /\ R.result_cache
       (warehouse (snd (run_query R.client R.scenes_query None
                          default_warning_threshold (R.start R.fresh ["y"])))) =
     {[ R.scenes_query ]} ∪ ∅.
Proof.
  split; [| vm_compute; reflexivity].
  apply (estimate_after_run_query R.State _ R.client R.data
           reference_cache_disabled_reads_data reference_submissions_keep_data).
Defined.

(** * Further properties of the export *)

Lemma foldl_app_flat_map {A B : Type} (f : A -> list B) (l : list A) (init : list B) :
  foldl (fun acc x => acc ++ f x) init l = init ++ flat_map f l.
Proof.
  revert init. induction l as [| x l IH]; intros init; simpl.
  - rewrite app_nil_r. reflexivity.
  - rewrite IH, <- app_assoc. reflexivity.
Qed.

(** X8.  The export source is the concatenation of the eighteen named
    collections, platform by platform in the listed order, tier 1 before
    tier 2; merging never drops or deduplicates an image, so the source has
    as many images as the collections have together. *)
Theorem collect_landsat_missions_concatenates (catalog : string -> list Image) :
  collect_landsat_missions catalog =
    flat_map (fun platform =>
                flat_map (fun tier =>
                            catalog ("LANDSAT/" +:+ platform +:+ "/C02/" +:+ tier))
                         ["T1"; "T2"])
             ["LM01"; "LM02"; "LM03"; "LM04"; "LT04"; "LT05"; "LE07"; "LC08"; "LC09"]
  /\ length (collect_landsat_missions catalog) =
       list_sum (map (fun name => length (catalog name))
                     (flat_map (fun platform =>
                                  map (fun tier =>
                                         "LANDSAT/" +:+ platform +:+ "/C02/" +:+ tier)
                                      tiers)
                               platforms))
  /\ (forall centre,
        length (images_to_points centre (collect_landsat_missions catalog)) =
          length (collect_landsat_missions catalog))
  /\ (forall img name,
        In name (flat_map (fun platform =>
                             map (fun tier =>
                                    "LANDSAT/" +:+ platform +:+ "/C02/" +:+ tier)
                                 tiers)
                          platforms) ->
        In img (catalog name) -> In img (collect_landsat_missions catalog)).
Proof.
  assert (Heq : collect_landsat_missions catalog =
                flat_map (fun platform =>
                            flat_map (fun tier =>
                                        catalog ("LANDSAT/" +:+ platform +:+ "/C02/" +:+ tier))
                                     tiers)
                         platforms).
  { unfold collect_landsat_missions.
    rewrite <- (app_nil_l (flat_map _ platforms)).
    rewrite <- foldl_app_flat_map. generalize (@nil Image).
    induction platforms as [| p ps IH]; intros init; [reflexivity |].
    cbn [foldl]. rewrite IH. f_equal. apply foldl_app_flat_map. }
  split; [exact Heq |]. split; [| split].
  - rewrite Heq. unfold platforms, tiers. simpl.
    repeat rewrite ?app_nil_r, ?length_app. lia.
  - intros centre. unfold images_to_points. apply length_map.
  - intros img name Hname Himg. rewrite Heq.
    apply in_flat_map in Hname. destruct Hname as (platform & Hp & Hname).
    apply in_map_iff in Hname. destruct Hname as (tier & <- & Ht).
    apply in_flat_map. exists platform. split; [exact Hp |].
    apply in_flat_map. exists tier. split; [exact Ht | exact Himg].
Qed.

(** X9.  A row is the centroid of the footprint together with the eight
    kept values, no more and no less: two catalog entries export to the
    same row exactly when their footprints have the same centroid and they
    agree on the eight kept properties, whatever else sets them apart. *)
Theorem rows_equal_iff (centre : Geometry -> Qc * Qc) (a b : Image) :
  centroid centre a = centroid centre b <->
  Geometry_centroid centre (footprint a) = Geometry_centroid centre (footprint b)
  /\ forall k, k ∈ keep_cols -> properties a !! k = properties b !! k.
Proof.
  split.
  - intros Heq. split.
    + apply (f_equal geometry) in Heq. exact Heq.
    + intros k Hk. apply (f_equal (fun row => feature_properties row !! k)) in Heq.
      rewrite !centroid_lookup in Heq. rewrite !decide_True in Heq by exact Hk.
      exact Heq.
  - intros [Hg Hp].
    assert (Hprops : feature_properties (centroid centre a) =
                     feature_properties (centroid centre b)).
    { apply map_eq. intros k. rewrite !centroid_lookup.
      destruct (decide (k ∈ keep_cols)) as [Hk | Hk]; [apply Hp, Hk | reflexivity]. }
    assert (Hgeom : geometry (centroid centre a) = geometry (centroid centre b))
      by exact Hg.
    destruct (centroid centre a) as [ga pa], (centroid centre b) as [gb pb].
    simpl in Hprops, Hgeom. subst. reflexivity.
Qed.

(** The sample scene and its reprocessed product export to one row. *)
Lemma rows_equal_iff_witness :
  sample_image <> reprocessed_image
  /\ centroid box_centre sample_image = centroid box_centre reprocessed_image.
Proof.
  split.
  - intros H. apply (f_equal (fun img => properties img !! "LANDSAT_PRODUCT_ID")) in H.
    vm_compute in H. discriminate H.
  - apply (proj2 (rows_equal_iff box_centre sample_image reprocessed_image)).
    split; [reflexivity |].
    intros k Hk. unfold keep_cols in Hk.
    repeat (apply elem_of_cons in Hk; destruct Hk as [-> | Hk]);
      try (apply elem_of_nil in Hk; destruct Hk); reflexivity.
Defined.

(** * The frame behind the cumulative chart *)

Import queries.

Lemma ffill_app (seen : gmap string Z) (a b : list (Row (option Z))) :
  ffill seen (a ++ b) = ffill seen a ++ ffill (seen_after seen a) b.
Proof.
  revert seen. induction a as [| r a IH]; intros seen; [reflexivity |].
  simpl. destruct (cumulative_count r) as [v |]; simpl; rewrite IH; reflexivity.
Qed.

Lemma ffill_length (seen : gmap string Z) (df : list (Row (option Z))) :
  length (ffill seen df) = length df.
Proof.
  revert seen. induction df as [| r df IH]; intros seen; [reflexivity |].
  simpl. destruct (cumulative_count r); simpl; rewrite IH; reflexivity.
Qed.

Lemma seen_after_snoc (seen : gmap string Z) (df : list (Row (option Z)))
    (r : Row (option Z)) :
  seen_after seen (df ++ [r]) =
    match cumulative_count r with
    | Some v => <[SPACECRAFT_ID r := v]> (seen_after seen df)
    | None => seen_after seen df
    end.
Proof. unfold seen_after. rewrite foldl_app. reflexivity. Qed.

(** What [ffill] remembers of a spacecraft after a prefix: the count of its
    last row with a count other than 0, if there is one. *)
Lemma seen_after_lookup (pre : list (Row Z)) (c : string) :
  match seen_after ∅ (replace_zero_nan pre) !! c with
  | Some v =>
      exists p1 r p2,
        pre = p1 ++ r :: p2 /\ SPACECRAFT_ID r = c
        /\ cumulative_count r <> 0 /\ v = cumulative_count r /\ idle c p2
  | None => idle c pre
  end.
Proof.
  induction pre as [| r pre IH] using rev_ind.
  - simpl. rewrite lookup_empty. constructor.
  - unfold replace_zero_nan. rewrite map_app. fold (replace_zero_nan pre).
    cbn [map]. rewrite seen_after_snoc. cbn [cumulative_count SPACECRAFT_ID].
    destruct (decide (cumulative_count r = 0)) as [Hz | Hz].
    + destruct (seen_after ∅ (replace_zero_nan pre) !! c) as [v |].
      * destruct IH as (p1 & r' & p2 & -> & Hc & Hn & Hv & Hidle).
        exists p1, r', (p2 ++ [r]). rewrite <- app_assoc. split; [reflexivity |].
        split; [exact Hc |]. split; [exact Hn |]. split; [exact Hv |].
        apply Forall_app. split; [exact Hidle |]. constructor; [auto | constructor].
      * apply Forall_app. split; [exact IH |]. constructor; [auto | constructor].
    + destruct (decide (SPACECRAFT_ID r = c)) as [Hc | Hc].
      * rewrite Hc, lookup_insert_eq.
        exists pre, r, []. split; [reflexivity |]. split; [exact Hc |].
        split; [exact Hz |]. split; [reflexivity | constructor].
      * rewrite lookup_insert_ne by exact Hc.
        destruct (seen_after ∅ (replace_zero_nan pre) !! c) as [v |].
        -- destruct IH as (p1 & r' & p2 & -> & Hc' & Hn & Hv & Hidle).
           exists p1, r', (p2 ++ [r]). rewrite <- app_assoc. split; [reflexivity |].
           split; [exact Hc' |]. split; [exact Hn |]. split; [exact Hv |].
           apply Forall_app. split; [exact Hidle |].
           constructor; [intros H; contradiction | constructor].
        -- apply Forall_app. split; [exact IH |].
           constructor; [intros H; contradiction | constructor].
Qed.

(** The filled value of a row, from the rows above it. *)
Lemma fill_forward_row (pre post : list (Row Z)) (r : Row Z) :
  exists v : Z,
    fill_forward (pre ++ r :: post) !! length pre =
      Some (mkRow (SPACECRAFT_ID r) (year_acquired r) v)
    /\ (cumulative_count r <> 0 /\ v = cumulative_count r
        \/ cumulative_count r = 0
           /\ (exists p1 r' p2,
                  pre = p1 ++ r' :: p2 /\ SPACECRAFT_ID r' = SPACECRAFT_ID r
                  /\ cumulative_count r' <> 0 /\ v = cumulative_count r'
                  /\ idle (SPACECRAFT_ID r) p2)
        \/ cumulative_count r = 0 /\ v = 0 /\ idle (SPACECRAFT_ID r) pre).
Proof.
  unfold fill_forward, replace_zero_nan. rewrite map_app. cbn [map].
  fold (replace_zero_nan pre). fold (replace_zero_nan post).
  rewrite ffill_app. unfold fillna_zero. rewrite map_app.
  rewrite lookup_app_r; rewrite length_map, ffill_length;
    unfold replace_zero_nan at 1; rewrite length_map; [| lia].
  rewrite Nat.sub_diag.
  pose proof (seen_after_lookup pre (SPACECRAFT_ID r)) as Hseen.
  cbn [ffill cumulative_count SPACECRAFT_ID year_acquired].
  destruct (decide (cumulative_count r = 0)) as [Hz | Hz].
  - cbn [map lookup list_lookup cumulative_count SPACECRAFT_ID year_acquired].
    destruct (seen_after ∅ (replace_zero_nan pre) !! SPACECRAFT_ID r) as [v |].
    + exists v. split; [reflexivity |]. right. left. split; [exact Hz |].
      exact Hseen.
    + exists 0. split; [reflexivity |]. right. right. auto.
  - exists (cumulative_count r). split; [reflexivity |]. left. auto.
Qed.

Lemma fill_forward_keys (df : list (Row Z)) :
  map key (fill_forward df) = map key df.
Proof.
  unfold fill_forward, fillna_zero, replace_zero_nan.
  rewrite !map_map. generalize (∅ : gmap string Z).
  induction df as [| r df IH]; intros seen; [reflexivity |].
  cbn [map ffill cumulative_count SPACECRAFT_ID year_acquired].
  destruct (decide (cumulative_count r = 0)); cbn [map]; f_equal; apply IH.
Qed.

(** An absent group sums to 0. *)
Lemma group_sum_absent (df : list (Row Z)) (c : string) (y : Z) :
  ~ In (c, y) (map key df) -> group_sum df c y = 0.
Proof.
  unfold group_sum. induction df as [| r df IH]; intros Hn; [reflexivity |].
  simpl in Hn. cbn [List.filter].
  rewrite bool_decide_eq_false_2.
  - apply IH. tauto.
  - intros [Hc Hy]. apply Hn. left. unfold key. rewrite Hc, Hy. reflexivity.
Qed.

(** With one row per key, a group is its row. *)
Lemma group_sum_present (df : list (Row Z)) (r : Row Z) :
  NoDup (map key df) -> In r df ->
  group_sum df (SPACECRAFT_ID r) (year_acquired r) = cumulative_count r.
Proof.
  induction df as [| a df IH]; intros Hnd Hin; [destruct Hin |].
  cbn [map] in Hnd. apply NoDup_cons in Hnd. destruct Hnd as [Ha Hnd].
  rewrite list_elem_of_In in Ha.
  unfold group_sum. cbn [List.filter]. destruct Hin as [-> | Hin].
  - rewrite bool_decide_eq_true_2 by auto. cbn [map foldr].
    fold (group_sum df (SPACECRAFT_ID r) (year_acquired r)).
    rewrite group_sum_absent by exact Ha. lia.
  - rewrite bool_decide_eq_false_2.
    + apply IH; assumption.
    + intros [Hc Hy]. apply Ha.
      apply in_map_iff. exists r. split; [| exact Hin].
      unfold key. rewrite Hc, Hy. reflexivity.
Qed.

Lemma categories_elem (df : list (Row Z)) (c : string) :
  c ∈ categories df <-> c ∈ map SPACECRAFT_ID df.
Proof.
  unfold categories. rewrite merge_sort_Permutation. apply elem_of_remove_dups.
Qed.

Lemma categories_NoDup (df : list (Row Z)) : NoDup (categories df).
Proof.
  unfold categories. rewrite merge_sort_Permutation. apply NoDup_remove_dups.
Qed.

Lemma years_elem (df : list (Row Z)) (y : Z) :
  y ∈ years df <-> y ∈ map year_acquired df.
Proof.
  unfold years. rewrite merge_sort_Permutation. apply elem_of_remove_dups.
Qed.

Lemma years_NoDup (df : list (Row Z)) : NoDup (years df).
Proof.
  unfold years. rewrite merge_sort_Permutation. apply NoDup_remove_dups.
Qed.

Lemma years_sorted (df : list (Row Z)) : StronglySorted Z.le (years df).
Proof. unfold years. apply StronglySorted_merge_sort; apply _. Qed.

(** In the sorted years, what comes before is smaller, what comes after
    is larger. *)
Lemma years_split (df : list (Row Z)) (ys1 ys2 : list Z) (y : Z) :
  years df = ys1 ++ y :: ys2 ->
  Forall (fun y' => y' < y) ys1 /\ Forall (fun y' => y < y') ys2.
Proof.
  intros Hs. pose proof (years_sorted df) as Hsorted.
  pose proof (years_NoDup df) as Hnd. rewrite Hs in Hsorted, Hnd.
  apply NoDup_app in Hnd. destruct Hnd as (_ & Hdisj & Hnd2).
  apply NoDup_cons in Hnd2. destruct Hnd2 as [Hy2 _].
  split; apply Forall_forall; intros y' Hy'.
  - assert (y' <= y).
    { apply (StronglySorted_app_1_elem_of Z.le ys1 (y :: ys2) y' y Hsorted);
        [exact Hy' | apply list_elem_of_here]. }
    assert (y' <> y).
    { intros ->. apply (Hdisj y Hy'). apply list_elem_of_here. }
    lia.
  - apply StronglySorted_app_1_r in Hsorted.
    apply StronglySorted_inv in Hsorted. destruct Hsorted as [_ Hall].
    rewrite Forall_forall in Hall. specialize (Hall y' Hy').
    assert (y' <> y). { intros ->. contradiction. }
    lia.
Qed.

Lemma app_split_right {A : Type} (P : A -> Prop) (l1 l2 p1 p2 : list A) (x : A) :
  l1 ++ l2 = p1 ++ x :: p2 -> Forall (fun a => ~ P a) l1 -> P x ->
  exists q1, l2 = q1 ++ x :: p2.
Proof.
  revert p1. induction l1 as [| a l1 IH]; intros p1 Heq Hall Hx.
  - exists p1. exact Heq.
  - apply Forall_cons in Hall. destruct Hall as [Ha Hall].
    destruct p1 as [| b p1]; simpl in Heq.
    + injection Heq as -> _. contradiction.
    + injection Heq as _ Heq. apply (IH p1 Heq Hall Hx).
Qed.

Lemma regroup_blocks (df : list (Row Z)) (cs1 cs2 : list string) (c : string)
    (ys1 ys2 : list Z) (y : Z) :
  categories df = cs1 ++ c :: cs2 ->
  years df = ys1 ++ y :: ys2 ->
  let row := fun c' y' => mkRow c' y' (group_sum df c' y') in
  let block := fun c' => map (row c') (years df) in
  regroup df =
    (flat_map block cs1 ++ map (row c) ys1)
      ++ row c y :: (map (row c) ys2 ++ flat_map block cs2).
Proof.
  intros Hcs Hys row block.
  assert (Hb : block c = map (row c) ys1 ++ row c y :: map (row c) ys2).
  { unfold block. rewrite Hys, map_app. reflexivity. }
  change (regroup df) with (flat_map block (categories df)).
  rewrite Hcs, flat_map_app. cbn [flat_map]. rewrite Hb, <- !app_assoc.
  reflexivity.
Qed.

Lemma regroup_other_blocks (df : list (Row Z)) (cs : list string) (c : string) :
  c ∉ cs ->
  Forall (fun r => ~ SPACECRAFT_ID r = c)
         (flat_map (fun c' => map (fun y' => mkRow c' y' (group_sum df c' y'))
                                  (years df))
                   cs).
Proof.
  intros Hc. apply Forall_forall. intros r Hr. rewrite list_elem_of_In in Hr.
  apply in_flat_map in Hr. destruct Hr as (c' & Hc' & Hr).
  apply in_map_iff in Hr. destruct Hr as (y' & <- & _). simpl.
  intros ->. apply Hc. apply list_elem_of_In. exact Hc'.
Qed.

(** One row per key: a row with a zero group has a zero count. *)
Lemma count_of_group (df : list (Row Z)) (r : Row Z) (c : string) (y : Z) :
  NoDup (map key df) -> In r df ->
  SPACECRAFT_ID r = c -> year_acquired r = y ->
  cumulative_count r = group_sum df c y.
Proof.
  intros Hnd Hin <- <-. symmetry. apply group_sum_present; assumption.
Qed.

Lemma group_row (df : list (Row Z)) (c : string) (y : Z) :
  NoDup (map key df) -> group_sum df c y <> 0 ->
  exists r, In r df /\ SPACECRAFT_ID r = c /\ year_acquired r = y
            /\ cumulative_count r = group_sum df c y.
Proof.
  intros Hnd Hs.
  destruct (decide ((c, y) ∈ map key df)) as [Hin | Hin];
    rewrite list_elem_of_In in Hin.
  - apply in_map_iff in Hin. destruct Hin as (r & [= Hc Hy] & Hin).
    exists r. split; [exact Hin |]. split; [exact Hc |]. split; [exact Hy |].
    apply count_of_group; assumption.
  - exfalso. apply Hs. apply group_sum_absent. exact Hin.
Qed.

Lemma earlier_year (df : list (Row Z)) (ys1 ys2 : list Z) (y y' : Z) :
  years df = ys1 ++ y :: ys2 -> y' ∈ years df -> y' < y -> y' ∈ ys1.
Proof.
  intros Hs Hin Hlt. destruct (years_split df ys1 ys2 y Hs) as [_ Hafter].
  rewrite Hs in Hin. apply elem_of_app in Hin. destruct Hin as [Hin | Hin]; [exact Hin |].
  apply elem_of_cons in Hin. destruct Hin as [-> | Hin]; [lia |].
  rewrite Forall_forall in Hafter. specialize (Hafter y' Hin). lia.
Qed.

(** The value the chart gets for a spacecraft and a year. *)
Lemma cumulative_scenes_value (df : list (Row Z)) (c : string) (y : Z) :
  NoDup (map key df) ->
  c ∈ map SPACECRAFT_ID df ->
  y ∈ map year_acquired df ->
  exists v, In (mkRow c y v) (cumulative_scenes df) /\ carried df c y v.
Proof.
  intros Hnd Hc Hy.
  apply categories_elem in Hc. apply years_elem in Hy.
  destruct (list_elem_of_split _ _ Hc) as (cs1 & cs2 & Hcs).
  destruct (list_elem_of_split _ _ Hy) as (ys1 & ys2 & Hys).
  pose proof (regroup_blocks df cs1 cs2 c ys1 ys2 y Hcs Hys) as Hre. cbv zeta in Hre.
  set (row := fun c' y' => mkRow c' y' (group_sum df c' y')) in *.
  set (block := fun c' => map (row c') (years df)) in *.
  assert (Hc1 : c ∉ cs1).
  { pose proof (categories_NoDup df) as Hn. rewrite Hcs in Hn.
    apply NoDup_app in Hn. destruct Hn as (_ & Hdisj & _).
    intros Hin. apply (Hdisj c Hin). apply list_elem_of_here. }
  pose proof (regroup_other_blocks df cs1 c Hc1) as Hother. fold row block in Hother.
  assert (Hyear : forall r', In r' df -> year_acquired r' ∈ years df).
  { intros r' Hr'. apply years_elem. apply list_elem_of_In. apply in_map. exact Hr'. }
  assert (Hzero : forall r' ys, In r' df -> SPACECRAFT_ID r' = c ->
                    year_acquired r' ∈ ys -> idle c (map (row c) ys) ->
                    cumulative_count r' = 0).
  { intros r' ys Hr' Hc' Hin Hidle.
    rewrite (count_of_group df r' c (year_acquired r') Hnd Hr' Hc' eq_refl).
    unfold idle in Hidle. rewrite Forall_forall in Hidle.
    apply (Hidle (row c (year_acquired r'))); [| reflexivity].
    apply list_elem_of_In. apply in_map. apply list_elem_of_In. exact Hin. }
  destruct (fill_forward_row (flat_map block cs1 ++ map (row c) ys1)
              (map (row c) ys2 ++ flat_map block cs2) (row c y))
    as (v & Hlook & Hcases).
  rewrite <- Hre in Hlook. cbn [row SPACECRAFT_ID year_acquired cumulative_count] in *.
  exists v. split.
  { apply list_elem_of_In. apply (list_elem_of_lookup_2 _ _ _ Hlook). }
  destruct Hcases as [(Hn & ->) | [(Hz & p1 & r' & p2 & Hpre & Hc' & Hn & -> & Hidle) | (Hz & -> & Hidle)]].
  - destruct (group_row df c y Hnd Hn) as (r & Hr & Hrc & Hry & Hcount).
    left. exists r. split; [exact Hr |]. split; [exact Hrc |].
    split; [lia |]. split; [rewrite Hcount; exact Hn |].
    split; [symmetry; exact Hcount |]. intros r'' _ _ Hrange. lia.
  - destruct (app_split_right (fun r => SPACECRAFT_ID r = c) _ _ _ _ _ Hpre Hother Hc')
      as (q1 & Hq).
    apply map_eq_app in Hq. destruct Hq as (z1 & zs & Hys1 & _ & Hzs).
    apply map_eq_cons in Hzs. destruct Hzs as (y' & z2 & -> & <- & <-).
    cbn [row cumulative_count] in Hn.
    destruct (group_row df c y' Hnd Hn) as (r & Hr & Hrc & Hry & Hcount).
    assert (Hys' : years df = z1 ++ y' :: (z2 ++ y :: ys2)).
    { rewrite Hys, Hys1, <- app_assoc. reflexivity. }
    destruct (years_split df _ _ _ Hys') as [_ Hafter].
    rewrite Forall_app in Hafter. destruct Hafter as [_ Hafter].
    apply Forall_cons in Hafter. destruct Hafter as [Hlt _].
    left. exists r. split; [exact Hr |]. split; [exact Hrc |].
    split; [lia |]. split; [rewrite Hcount; exact Hn |].
    split; [symmetry; exact Hcount |].
    intros r'' Hr'' Hc'' Hrange.
    destruct (decide (year_acquired r'' = y)) as [Heq | Hne].
    + rewrite (count_of_group df r'' c y Hnd Hr'' Hc'' Heq). exact Hz.
    + apply (Hzero r'' z2 Hr'' Hc''); [| exact Hidle].
      assert (Hin1 : year_acquired r'' ∈ ys1).
      { apply (earlier_year df ys1 ys2 y _ Hys (Hyear r'' Hr'')). lia. }
      rewrite Hys1 in Hin1. apply elem_of_app in Hin1.
      destruct (years_split df _ _ _ Hys') as [Hbefore _].
      rewrite Forall_forall in Hbefore.
      destruct Hin1 as [Hin1 | Hin1]; [specialize (Hbefore _ Hin1); lia |].
      apply elem_of_cons in Hin1. destruct Hin1 as [Heq | Hin1]; [lia | exact Hin1].
  - right. split; [reflexivity |]. intros r'' Hr'' Hc'' Hrange.
    destruct (decide (year_acquired r'' = y)) as [Heq | Hne].
    + rewrite (count_of_group df r'' c y Hnd Hr'' Hc'' Heq). exact Hz.
    + apply (Hzero r'' ys1 Hr'' Hc'').
      * apply (earlier_year df ys1 ys2 y _ Hys (Hyear r'' Hr'')). lia.
      * unfold idle in Hidle |- *. rewrite Forall_app in Hidle. apply Hidle.
Qed.

Lemma regroup_keys (df : list (Row Z)) :
  map key (regroup df) =
    flat_map (fun c => map (fun y => (c, y)) (years df)) (categories df).
Proof.
  unfold regroup. induction (categories df) as [| c cs IH]; [reflexivity |].
  cbn [flat_map]. rewrite map_app, IH, map_map. reflexivity.
Qed.

Lemma grid_NoDup (cs : list string) (ys : list Z) :
  NoDup cs -> NoDup ys ->
  NoDup (flat_map (fun c => map (fun y => (c, y)) ys) cs).
Proof.
  intros Hcs Hys. induction Hcs as [| c cs Hc Hcs IH]; [constructor |].
  cbn [flat_map]. apply NoDup_app. split; [| split; [| exact IH]].
  - apply NoDup_fmap_2; [| exact Hys]. intros y1 y2 [= ->]. reflexivity.
  - intros [c' y'] H1 H2. rewrite list_elem_of_In in H1, H2.
    apply in_map_iff in H1. destruct H1 as (y1 & [= <- <-] & _).
    apply in_flat_map in H2. destruct H2 as (c2 & Hc2 & H2).
    apply in_map_iff in H2. destruct H2 as (y2 & [= -> _] & _).
    apply Hc. apply list_elem_of_In. exact Hc2.
Qed.

Lemma regroup_keys_NoDup (df : list (Row Z)) : NoDup (map key (regroup df)).
Proof.
  rewrite regroup_keys. apply grid_NoDup; [apply categories_NoDup | apply years_NoDup].
Qed.

Lemma regroup_key_elem (df : list (Row Z)) (c : string) (y : Z) :
  In (c, y) (map key (regroup df)) <->
  c ∈ map SPACECRAFT_ID df /\ y ∈ map year_acquired df.
Proof.
  rewrite regroup_keys, <- categories_elem, <- years_elem, in_flat_map.
  rewrite !list_elem_of_In. split.
  - intros (c' & Hc' & H). apply in_map_iff in H.
    destruct H as (y' & [= -> ->] & Hy'). auto.
  - intros [Hc Hy]. exists c. split; [exact Hc |].
    apply in_map_iff. exists y. auto.
Qed.

(** Rows with one key among keys without duplicates are one row. *)
Lemma same_key_same_row {A : Type} (l : list (Row A)) (r1 r2 : Row A) :
  NoDup (map key l) -> In r1 l -> In r2 l -> key r1 = key r2 -> r1 = r2.
Proof.
  induction l as [| a l IH]; intros Hnd H1 H2 Hk; [destruct H1 |].
  cbn [map] in Hnd. apply NoDup_cons in Hnd. destruct Hnd as [Ha Hnd].
  rewrite list_elem_of_In in Ha.
  destruct H1 as [-> | H1], H2 as [-> | H2].
  - reflexivity.
  - exfalso. apply Ha. rewrite Hk. apply in_map. exact H2.
  - exfalso. apply Ha. rewrite <- Hk. apply in_map. exact H1.
  - apply IH; assumption.
Qed.

(** With one row per key, a spacecraft carries one count into a year. *)
Lemma carried_functional (df : list (Row Z)) (c : string) (y v v' : Z) :
  NoDup (map key df) -> carried df c y v -> carried df c y v' -> v = v'.
Proof.
  intros Hnd [(r & Hr & Hc & Hy & Hn & -> & Hlast) | (-> & Hall)]
             [(r' & Hr' & Hc' & Hy' & Hn' & -> & Hlast') | (-> & Hall')].
  - destruct (Z.lt_trichotomy (year_acquired r) (year_acquired r')) as [Hlt | [Heq | Hgt]].
    + exfalso. apply Hn'. apply (Hlast r' Hr' Hc'). lia.
    + f_equal. apply (same_key_same_row df r r' Hnd Hr Hr').
      unfold key. rewrite Hc, Hc', Heq. reflexivity.
    + exfalso. apply Hn. apply (Hlast' r Hr Hc). lia.
  - exfalso. apply Hn. apply (Hall' r Hr Hc Hy).
  - exfalso. apply Hn'. apply (Hall r' Hr' Hc' Hy').
  - reflexivity.
Qed.

(** Every row of the chart's frame holds the carried count of its key. *)
Lemma cumulative_scenes_row (df : list (Row Z)) (c : string) (y v : Z) :
  NoDup (map key df) ->
  In (mkRow c y v) (cumulative_scenes df) ->
  c ∈ map SPACECRAFT_ID df /\ y ∈ map year_acquired df /\ carried df c y v.
Proof.
  intros Hnd Hin.
  assert (Hk : In (c, y) (map key (regroup df))).
  { unfold cumulative_scenes in Hin. rewrite <- fill_forward_keys.
    apply (in_map key) in Hin. exact Hin. }
  apply regroup_key_elem in Hk. destruct Hk as [Hc Hy].
  split; [exact Hc |]. split; [exact Hy |].
  destruct (cumulative_scenes_value df c y Hnd Hc Hy) as (v0 & Hin0 & Hcar).
  assert (Heq : mkRow c y v = mkRow c y v0).
  { apply (same_key_same_row (cumulative_scenes df)); [| exact Hin | exact Hin0 | reflexivity].
    unfold cumulative_scenes. rewrite fill_forward_keys. apply regroup_keys_NoDup. }
  injection Heq as ->. exact Hcar.
Qed.

(** X10.  Lines 76 to 86 on any frame: the rows keep their place and their
    keys; a row whose count is not 0 keeps it; a row whose count is 0 takes
    the count of the nearest row above it of the same spacecraft whose
    count is not 0, and stays 0 when there is none.  Rows of other
    spacecraft in between play no part. *)
Theorem fill_forward_takes_last_count (pre post : list (Row Z)) (r : Row Z) :
  length (fill_forward (pre ++ r :: post)) = length (pre ++ r :: post)
  /\ map key (fill_forward (pre ++ r :: post)) = map key (pre ++ r :: post)
  /\ exists v : Z,
       fill_forward (pre ++ r :: post) !! length pre =
         Some (mkRow (SPACECRAFT_ID r) (year_acquired r) v)
       /\ (cumulative_count r <> 0 /\ v = cumulative_count r
           \/ cumulative_count r = 0
              /\ (exists p1 r' p2,
                     pre = p1 ++ r' :: p2 /\ SPACECRAFT_ID r' = SPACECRAFT_ID r
                     /\ cumulative_count r' <> 0 /\ v = cumulative_count r'
                     /\ idle (SPACECRAFT_ID r) p2)
           \/ cumulative_count r = 0 /\ v = 0 /\ idle (SPACECRAFT_ID r) pre).
Proof.
  split; [| split; [apply fill_forward_keys | apply fill_forward_row]].
  rewrite <- (length_map key (fill_forward _)), fill_forward_keys.
  apply length_map.
Qed.

(** X11.  The regrouping of lines 68 to 74 lays the answer out on a grid:
    one row for every spacecraft of the answer and every year of the
    answer, each pair once, spacecraft by spacecraft with the years
    ascending.  When the answer has one row per pair, its rows are all
    there unchanged, and every pair it lacks gets a row with count 0. *)
Theorem regroup_is_grid (df : list (Row Z)) :
  map key (regroup df) =
    flat_map (fun c => map (fun y => (c, y)) (years df)) (categories df)
  /\ NoDup (map key (regroup df))
  /\ StronglySorted Z.le (years df)
  /\ length (regroup df) = (length (categories df) * length (years df))%nat
  /\ (forall c y, In (c, y) (map key (regroup df)) <->
                  c ∈ map SPACECRAFT_ID df /\ y ∈ map year_acquired df)
  /\ (forall r, In r (regroup df) -> ~ In (key r) (map key df) ->
                cumulative_count r = 0)
  /\ (NoDup (map key df) -> forall r, In r df -> In r (regroup df)).
Proof.
  split; [apply regroup_keys |]. split; [apply regroup_keys_NoDup |].
  split; [apply years_sorted |]. split; [| split; [apply regroup_key_elem |]].
  - unfold regroup. induction (categories df) as [| c cs IH]; [reflexivity |].
    cbn [flat_map length]. rewrite length_app, length_map, IH. reflexivity.
  - split.
    + intros r Hr Hk. unfold regroup in Hr. apply in_flat_map in Hr.
      destruct Hr as (c & _ & Hr). apply in_map_iff in Hr.
      destruct Hr as (y & <- & _). cbn [cumulative_count].
      apply group_sum_absent. exact Hk.
    + intros Hnd r Hr. unfold regroup. apply in_flat_map.
      exists (SPACECRAFT_ID r). split.
      * apply list_elem_of_In, categories_elem, list_elem_of_In, in_map, Hr.
      * apply in_map_iff. exists (year_acquired r). split.
        -- rewrite (group_sum_present df r Hnd Hr). destruct r. reflexivity.
        -- apply list_elem_of_In, years_elem, list_elem_of_In, in_map, Hr.
Qed.

(** X12.  The frame handed to the chart, for an answer with one row per
    spacecraft and year: it has a row for a spacecraft and a year exactly
    when both occur in the answer, and the row's value is the count the
    spacecraft carries into that year - the count of its latest year up to
    it, 0 before its first.  So a count persists through the years in
    which the spacecraft acquired nothing. *)
Theorem cumulative_scenes_rows (df : list (Row Z)) (c : string) (y v : Z) :
  NoDup (map key df) ->
  (In (mkRow c y v) (cumulative_scenes df) <->
   c ∈ map SPACECRAFT_ID df /\ y ∈ map year_acquired df /\ carried df c y v).
Proof.
  intros Hnd. split; [apply cumulative_scenes_row, Hnd |].
  intros (Hc & Hy & Hcar).
  destruct (cumulative_scenes_value df c y Hnd Hc Hy) as (v0 & Hin & Hcar0).
  rewrite (carried_functional df c y v v0 Hnd Hcar Hcar0). exact Hin.
Qed.

Lemma sample_answer_NoDup : NoDup (map key sample_answer).
Proof. apply (bool_decide_unpack (NoDup (map key sample_answer))). vm_compute. exact I. Qed.

(** Landsat 5 acquired nothing in 1986: the chart shows its 1985 count. *)
Lemma cumulative_scenes_rows_witness :
  (In (mkRow "LANDSAT_5" 1986 25) (cumulative_scenes sample_answer) <->
   "LANDSAT_5" ∈ map SPACECRAFT_ID sample_answer
   /\ 1986 ∈ map year_acquired sample_answer
   /\ carried sample_answer "LANDSAT_5" 1986 25)
  /\ In (mkRow "LANDSAT_5" 1986 25) (cumulative_scenes sample_answer).
Proof.
  split.
  - apply (cumulative_scenes_rows sample_answer "LANDSAT_5" 1986 25
             sample_answer_NoDup).
  - vm_compute. tauto.
Defined.

(** X13.  When the answer's counts are cumulative (not negative, and not
    decreasing over the years of a spacecraft), so is the chart's frame:
    along the years of a spacecraft its values never go down, and none is
    negative. *)
Theorem cumulative_scenes_never_decrease (df : list (Row Z)) (c : string)
    (y1 y2 v1 v2 : Z) :
  NoDup (map key df) ->
  (forall r, In r df -> 0 <= cumulative_count r) ->
  (forall r r', In r df -> In r' df -> SPACECRAFT_ID r = SPACECRAFT_ID r' ->
                year_acquired r <= year_acquired r' ->
                cumulative_count r <= cumulative_count r') ->
  In (mkRow c y1 v1) (cumulative_scenes df) ->
  In (mkRow c y2 v2) (cumulative_scenes df) ->
  y1 <= y2 ->
  0 <= v1 <= v2.
Proof.
  intros Hnd Hpos Hmono H1 H2 Hle.
  destruct (cumulative_scenes_row df c y1 v1 Hnd H1) as (_ & _ & Hc1).
  destruct (cumulative_scenes_row df c y2 v2 Hnd H2) as (_ & _ & Hc2).
  destruct Hc1 as [(r1 & Hr1 & Hs1 & Hy1 & Hn1 & -> & Hlast1) | (-> & Hall1)];
    destruct Hc2 as [(r2 & Hr2 & Hs2 & Hy2 & Hn2 & -> & Hlast2) | (-> & Hall2)].
  - split; [apply Hpos, Hr1 |].
    destruct (Z_le_gt_dec (year_acquired r1) (year_acquired r2)) as [Hyy | Hyy].
    + apply Hmono; [exact Hr1 | exact Hr2 | congruence | exact Hyy].
    + exfalso. apply Hn1. apply (Hlast2 r1 Hr1 Hs1). lia.
  - exfalso. apply Hn1. apply (Hall2 r1 Hr1 Hs1). lia.
  - split; [lia | apply Hpos, Hr2].
  - lia.
Qed.

Lemma cumulative_scenes_never_decrease_witness : 0 <= 25 <= 40.
Proof.
  apply (cumulative_scenes_never_decrease sample_answer "LANDSAT_5" 1986 1987 25 40
           sample_answer_NoDup).
  - intros r Hr. unfold sample_answer in Hr.
    repeat (destruct Hr as [<- | Hr]; [simpl; lia |]). destruct Hr.
  - intros r r' Hr Hr'. unfold sample_answer in Hr, Hr'.
    repeat (destruct Hr as [<- | Hr];
            [repeat (destruct Hr' as [<- | Hr']; [simpl; intros; first [lia | discriminate] |]);
             destruct Hr' |]).
    destruct Hr.
  - vm_compute. tauto.
  - vm_compute. tauto.
  - lia.
Defined.

#[global] Instance fewer_scenes_total : Total fewer_scenes.
Proof. intros a b. unfold fewer_scenes. lia. Qed.

Section AnimationFacts.

Variable sort_values : list CellRow -> list CellRow.

(** What [sort_values] promises: the same rows, in ascending order. *)
Hypothesis sort_values_Permutation : forall l, Permutation (sort_values l) l.
Hypothesis sort_values_Sorted : forall l, Sorted fewer_scenes (sort_values l).



End AnimationFacts.

